(** * Tile tooling of cropbots/rusty: renamer, splitter, atlas packer, chunk baker

    A shallow embedding of the four scripts under [src/assets/tiles/]:

    - [renamer.py]          (module [Renamer])
    - [tilesplitter.py]     (module [Splitter])
    - [tilemapforatlas.py]  (module [Atlas])
    - [tilebaker.py]        (module [Baker])

    Python integers are [Z]; [//] and [%] are floor division and its
    remainder, which is what [Z.div] and [Z.modulo] compute, with the
    [ZeroDivisionError] of a zero divisor written out.  Strings are Rocq
    strings over the ASCII alphabet.  A folder is a finite map from file
    names to file contents.  Exceptions are the [Raise] branch of a small
    error monad; a [for] loop is a monadic fold over the list it iterates. *)

From Stdlib Require Import ZArith Lia Ascii String DecimalString DecimalZ.
From Stdlib Require Import Permutation.
From stdpp Require Import base gmap strings list sorting.

Local Open Scope Z_scope.

(** ** Python primitives *)

Module Py.

Inductive exn := ValueError | ZeroDivisionError | OSError | SystemError.

Inductive result (A : Type) :=
| Ok (a : A)
| Raise (e : exn).
Arguments Ok {A} a.
Arguments Raise {A} e.

Definition bind {A B} (m : result A) (k : A → result B) : result B :=
  match m with
  | Ok a => k a
  | Raise e => Raise e
  end.

(** [for x in l: s = body x s], stopping at the first exception. *)
Fixpoint for_each {A S} (l : list A) (body : A → S → result S) (s : S)
  : result S :=
  match l with
  | [] => Ok s
  | x :: l' => bind (body x s) (for_each l' body)
  end.

(** [[f(x) for x in l]], stopping at the first exception. *)
Fixpoint map_m {A B} (f : A → result B) (l : list A) : result (list B) :=
  match l with
  | [] => Ok []
  | x :: l' =>
      bind (f x) (λ y, bind (map_m f l') (λ ys, Ok (y :: ys)))
  end.

(** [a // b] on integers. *)
Definition floordiv (a b : Z) : result Z :=
  if b =? 0 then Raise ZeroDivisionError else Ok (a / b).

(** [math.ceil(a / b)] on integers.  [a / b] is Python's true division,
    correctly rounded to a double, so below 2^53 its ceiling is the exact
    one, [-((-a) // b)]; the model takes the exact ceiling. *)
Definition ceil_truediv (a b : Z) : result Z :=
  if b =? 0 then Raise ZeroDivisionError else Ok (- ((- a) / b)).

(** [range(n)]: empty when [n <= 0]. *)
Definition range (n : Z) : list Z := Z.of_nat <$> seq 0 (Z.to_nat n).

(** *** Strings *)

Definition is_upper (c : ascii) : bool :=
  let n := Z.of_nat (nat_of_ascii c) in (65 <=? n) && (n <=? 90).

Definition lower_char (c : ascii) : ascii :=
  if is_upper c then ascii_of_nat (nat_of_ascii c + 32) else c.

(** [s.lower()] *)
Fixpoint lower (s : string) : string :=
  match s with
  | EmptyString => EmptyString
  | String c r => String (lower_char c) (lower r)
  end.

(** [s.endswith(suffix)] *)
Fixpoint endswith (s suffix : string) : bool :=
  if String.eqb s suffix then true
  else match s with
       | EmptyString => false
       | String _ r => endswith r suffix
       end.

(** [s.split(sep)] for a one-character separator: every occurrence of
    [sep] ends a field, so the result has one more field than [s] has
    separators. *)
Fixpoint split (sep : ascii) (s : string) : list string :=
  match s with
  | EmptyString => [EmptyString]
  | String c r =>
      if Ascii.eqb c sep then EmptyString :: split sep r
      else match split sep r with
           | [] => [String c EmptyString]
           | f :: fs => String c f :: fs
           end
  end.

(** [s.rfind(c)] for a one-character [c], counting positions from [i]:
    the index of the last occurrence, [-1] when there is none. *)
Fixpoint rfind_from (i : Z) (c : ascii) (s : string) : Z :=
  match s with
  | EmptyString => -1
  | String a r =>
      let k := rfind_from (i + 1) c r in
      if 0 <=? k then k else if Ascii.eqb a c then i else -1
  end.

Definition rfind (c : ascii) (s : string) : Z := rfind_from 0 c s.

(** [s[i:i+1] != c] *)
Definition char_differs (s : string) (i : Z) (c : ascii) : bool :=
  match String.get (Z.to_nat i) s with
  | Some a => negb (Ascii.eqb a c)
  | None => true
  end.

(** [os.path.splitext(p)] ([genericpath._splitext] with separator ["/"]
    and extension separator ["."]): the extension starts at the last dot
    of the last path component, unless only dots precede it there. *)
Definition splitext (p : string) : string * string :=
  let sepIndex := rfind "/"%char p in
  let dotIndex := rfind "."%char p in
  if (sepIndex <? dotIndex)
     && existsb (λ k, char_differs p (sepIndex + 1 + k) "."%char)
                (range (dotIndex - (sepIndex + 1)))
  then (String.substring 0 (Z.to_nat dotIndex) p,
        String.substring (Z.to_nat dotIndex)
          (String.length p - Z.to_nat dotIndex) p)
  else (p, EmptyString).

(** [str(n)] and the [{n}] of an f-string: decimal digits, ["-"] first
    for a negative number. *)
Definition str (n : Z) : string := NilEmpty.string_of_int (Z.to_int n).

(** *** [int(s)] in base 10 *)

(** The white space [int] strips from an ASCII string: tab, line feed,
    vertical tab, form feed, carriage return and space.  The separators
    [\x1c] to [\x1f], for which [str.isspace] holds, are not stripped. *)
Definition is_space (c : ascii) : bool :=
  let n := Z.of_nat (nat_of_ascii c) in
  ((9 <=? n) && (n <=? 13)) || (n =? 32).

Definition digit_of (c : ascii) : option Z :=
  let n := Z.of_nat (nat_of_ascii c) in
  if (48 <=? n) && (n <=? 57) then Some (n - 48) else None.

Fixpoint lstrip (s : string) : string :=
  match s with
  | String c r => if is_space c then lstrip r else s
  | EmptyString => EmptyString
  end.

Fixpoint all_space (s : string) : bool :=
  match s with
  | EmptyString => true
  | String c r => is_space c && all_space r
  end.

(** The digits of the literal, an underscore allowed between two digits,
    then optional trailing white space up to the end of the string.
    [after_digit] records whether the previous character was a digit. *)
Fixpoint int_digits (acc : Z) (after_digit : bool) (s : string)
  : result Z :=
  match s with
  | EmptyString => if after_digit then Ok acc else Raise ValueError
  | String c r =>
      match digit_of c with
      | Some d => int_digits (10 * acc + d) true r
      | None =>
          if after_digit then
            if Ascii.eqb c "_"%char then int_digits acc false r
            else if all_space s then Ok acc else Raise ValueError
          else Raise ValueError
      end
  end.

(** [int(s)]: optional white space, optional sign, digits, optional white
    space; anything else is a [ValueError].  (File names are far shorter
    than the 4300 digits above which [int] refuses a literal.) *)
Definition int (s : string) : result Z :=
  match lstrip s with
  | String "-"%char r => bind (int_digits 0 false r) (λ n, Ok (- n))
  | String "+"%char r => int_digits 0 false r
  | t => int_digits 0 false t
  end.

End Py.

Import Py.

Notation "'try!' x := m 'in' k" := (Py.bind m (λ x, k))
  (at level 10, x pattern, m at level 100, k at level 200,
   only parsing).

(** ** Pillow images *)

Module PIL.

(** One RGBA pixel; every band is a byte. *)
Record rgba := RGBA { red : Z; green : Z; blue : Z; alpha : Z }.

Definition transparent : rgba := RGBA 0 0 0 0.

(** An image in mode RGBA: its size and the pixel at each coordinate,
    [(0, 0)] being the top left corner. *)
Record Image := mkImage {
  width : Z;
  height : Z;
  getpixel : Z → Z → rgba
}.

Definition in_range (lo hi v : Z) : bool := (lo <=? v) && (v <? hi).

Definition inside (im : Image) (x y : Z) : bool :=
  in_range 0 (width im) x && in_range 0 (height im) y.

(** [Image.new("RGBA", (w, h), color)]; a negative side is a
    [ValueError]. *)
Definition new (w h : Z) (color : rgba) : result Image :=
  if (w <? 0) || (h <? 0) then Raise ValueError
  else Ok (mkImage w h (λ _ _, color)).

(** A crop box [(left, upper, right, lower)], written
    [(x0, y0, x1, y1)]. *)
Definition box : Type := Z * Z * Z * Z.

Definition in_box (b : box) (x y : Z) : bool :=
  let '(x0, y0, x1, y1) := b in
  in_range x0 x1 x && in_range y0 y1 y.

(** [im.crop(box)]: the pixels of the box, transparent black where the
    box leaves the image; a box whose right or lower edge comes before
    its left or upper edge is a [ValueError]. *)
Definition crop (im : Image) (b : box) : result Image :=
  let '(x0, y0, x1, y1) := b in
  if (x1 <? x0) || (y1 <? y0) then Raise ValueError
  else Ok (mkImage (x1 - x0) (y1 - y0)
             (λ x y, if inside im (x + x0) (y + y0)
                     then getpixel im (x + x0) (y + y0)
                     else transparent)).

(** The coordinates of an image, row by row. *)
Definition coords (im : Image) : list (Z * Z) :=
  y ← range (height im); x ← range (width im); [(x, y)].

(** [im.getbbox()] on an RGBA image: the bounding box of the pixels whose
    alpha is not zero, [None] when there is no such pixel. *)
Definition getbbox (im : Image) : option box :=
  match filter (λ p, alpha (getpixel im p.1 p.2) ≠ 0) (coords im) with
  | [] => None
  | p :: ps =>
      Some (foldr Z.min p.1 (fst <$> ps), foldr Z.min p.2 (snd <$> ps),
            foldr Z.max p.1 (fst <$> ps) + 1,
            foldr Z.max p.2 (snd <$> ps) + 1)
  end.

(** [dst.paste(src, (x, y))]: the pixels of [src] replace those of [dst]
    in the part of the box at [(x, y)] that lies inside [dst]. *)
Definition paste (dst src : Image) (x y : Z) : Image :=
  mkImage (width dst) (height dst)
    (λ i j, if inside dst i j && inside src (i - x) (j - y)
            then getpixel src (i - x) (j - y)
            else getpixel dst i j).

Section Masked.
(** The band-wise blend Pillow applies to one pixel when pasting
    through a mask: destination pixel, source pixel and mask value
    give the new destination pixel. *)
Variable blend : rgba → rgba → Z → rgba.

(** [dst.paste(src, (x, y), mask)] with an RGBA mask of the size of
    [src], whose alpha band is the mask. *)
Definition paste_masked (dst src mask : Image) (x y : Z) : Image :=
  mkImage (width dst) (height dst)
    (λ i j, if inside dst i j && inside src (i - x) (j - y)
            then blend (getpixel dst i j) (getpixel src (i - x) (j - y))
                   (alpha (getpixel mask (i - x) (j - y)))
            else getpixel dst i j).
End Masked.

End PIL.

Import PIL.

(** ** Folders *)

(** Manifest rectangle, the value of one entry of [tileset.json]. *)
Record Rect := mkRect { rx : Z; ry : Z; rwidth : Z; rheight : Z }.

(** What a file holds: a PNG image, a JSON manifest, or anything else. *)
Inductive file :=
| Png (im : Image)
| Json (mapping : gmap string Rect)
| Blob (tag : Z).

(** [Image.open(path).convert("RGBA")] on a file of the folder. *)
Definition open_rgba (folder : gmap string file) (name : string)
  : result Image :=
  match folder !! name with
  | Some (Png im) => Ok im
  | _ => Raise OSError
  end.

(** [im.save(path)] of an image as PNG into the folder.  Pillow's encoder
    refuses an image without pixels ([SystemError]: tile cannot extend
    outside image) and [save] then removes the file it had created, so
    the folder is as before. *)
Definition save_png (folder : gmap string file) (name : string) (im : Image)
  : result (gmap string file) :=
  if (width im <=? 0) || (height im <=? 0) then Raise SystemError
  else Ok (<[name := Png im]> folder).

(** [os.rename(src, dst)] inside one folder: [dst] is replaced when it
    exists; a missing [src] is an [OSError]. *)
Definition rename (folder : gmap string file) (src dst : string)
  : result (gmap string file) :=
  match folder !! src with
  | Some f => Ok (<[dst := f]> (delete src folder))
  | None => Raise OSError
  end.

(** ** renamer.py *)

Module Renamer.

Definition TILESET_WIDTH : Z := 17.

(** The two lines the script prints. *)
Inductive line :=
| Skipping (filename : string)
| Renamed (filename new_name : string).

(** [x, y = map(int, name.split("_"))]: the fields are converted one by
    one as the unpacking asks for them; a conversion that fails, a
    missing second field and a third field are each a [ValueError]. *)
Definition parse_xy (name : string) : result (Z * Z) :=
  match split "_" name with
  | [] => Raise ValueError
  | [a] => try! _ := int a in Raise ValueError
  | [a; b] => try! x := int a in try! y := int b in Ok (x, y)
  | a :: b :: c :: _ =>
      try! _ := int a in try! _ := int b in try! _ := int c in
      Raise ValueError
  end.

Definition tile_id (W x y : Z) : Z := y / 16 * W + x / 16 + 1.

(** The filter of line 9. *)
Definition is_png (filename : string) : bool := endswith filename ".png".

(** One iteration of the loop over [os.listdir(FOLDER)]; the state is the
    folder and the lines printed so far. *)
Definition step (W : Z) (filename : string)
    (st : gmap string file * list line)
  : result (gmap string file * list line) :=
  if is_png filename then
    let name := (splitext filename).1 in
    match parse_xy name with
    | Raise ValueError => Ok (st.1, st.2 ++ [Skipping filename])
    | Raise e => Raise e
    | Ok (x, y) =>
        let new_name := str (tile_id W x y) +:+ ".png" in
        try! folder := rename st.1 filename new_name in
        Ok (folder, st.2 ++ [Renamed filename new_name])
    end
  else Ok st.

(** The script, for a column count [W] and the order [listing] in which
    [os.listdir] returns the names of the folder. *)
Definition run (W : Z) (listing : list string) (folder : gmap string file)
  : result (gmap string file * list line) :=
  for_each listing (step W) (folder, []).

Definition main := run TILESET_WIDTH.

End Renamer.

(** ** tilesplitter.py *)

Module Splitter.

(** The body of the inner loop: crop the tile of grid cell [(x, y)], skip
    it when asked to and it is empty, otherwise save it.  [saved] lists
    the [tile.save] calls so far, each with its file name inside
    [output_dir]; its length is [count]. *)
Definition save_cell (tileset : Image) (tile_width tile_height : Z)
    (skip_empty : bool) (y x : Z) (saved : list (string * Image))
  : result (list (string * Image)) :=
  let x0 := x * tile_width in
  let y0 := y * tile_height in
  let x1 := x0 + tile_width in
  let y1 := y0 + tile_height in
  try! tile := crop tileset (x0, y0, x1, y1) in
  let filename :=
    str (x * tile_width) +:+ "_" +:+ str (y * tile_height) +:+ ".png" in
  if skip_empty then
    match getbbox tile with
    | None => Ok saved
    | Some _ => Ok (saved ++ [(filename, tile)])
    end
  else Ok (saved ++ [(filename, tile)]).

(** [split_tileset] on the image loaded from [image_path]. *)
Definition split_tileset (tileset : Image) (tile_width tile_height : Z)
    (skip_empty : bool) : result (list (string * Image)) :=
  try! tiles_x := floordiv (width tileset) tile_width in
  try! tiles_y := floordiv (height tileset) tile_height in
  for_each (range tiles_y)
    (λ y, for_each (range tiles_x)
            (save_cell tileset tile_width tile_height skip_empty y))
    [].

End Splitter.

(** ** tilemapforatlas.py *)

Module Atlas.

Definition TILE_SIZE : Z := 16.
Definition ATLAS_COLS : Z := 16.
Definition OUTPUT_IMAGE : string := "tileset.png".
Definition OUTPUT_JSON : string := "tileset.json".

(** [sorted(l, key=...)] on the list decorated with its keys: a stable
    sort, here by insertion from the right, an element going in front of
    the first one whose key is not smaller. *)
Fixpoint insert_by_key (x : Z * string) (l : list (Z * string))
  : list (Z * string) :=
  match l with
  | [] => [x]
  | y :: l' =>
      if x.1 <=? y.1 then x :: y :: l' else y :: insert_by_key x l'
  end.

Definition sort_by_key (l : list (Z * string)) : list (Z * string) :=
  foldr insert_by_key [] l.

(** The filter of line 14. *)
Definition is_png (f : string) : bool := endswith (lower f) ".png".

Definition stem_key (f : string) : result (Z * string) :=
  try! k := int (splitext f).1 in Ok (k, f).

(** Lines 13 to 16: the PNG names of the listing, sorted by the integer
    value of their stems; every key is computed before sorting starts. *)
Definition sorted_files (listing : list string) : result (list string) :=
  try! keyed := map_m stem_key (List.filter is_png listing) in
  Ok (snd <$> sort_by_key keyed).

(** [enumerate(files)], counting from [i]. *)
Fixpoint enumerate_from {A} (i : Z) (l : list A) : list (Z * A) :=
  match l with
  | [] => []
  | x :: l' => (i, x) :: enumerate_from (i + 1) l'
  end.

(** The body of the packing loop; the state is the atlas and the
    mapping. *)
Definition place (cols size : Z) (folder : gmap string file)
    (entry : Z * string) (st : Image * gmap string Rect)
  : result (Image * gmap string Rect) :=
  let tile_id := (splitext entry.2).1 in
  try! img := open_rgba folder entry.2 in
  let x := (entry.1 mod cols) * size in
  let y := (entry.1 / cols) * size in
  Ok (paste st.1 img x y,
      <["tile-" +:+ tile_id := mkRect x y size size]> st.2).

(** [main] up to the two writes: the atlas and the mapping. *)
Definition pack (cols size : Z) (listing : list string)
    (folder : gmap string file) : result (Image * gmap string Rect) :=
  try! files := sorted_files listing in
  let total := Z.of_nat (length files) in
  try! rows := ceil_truediv total cols in
  let atlas_w := cols * size in
  let atlas_h := rows * size in
  try! atlas := new atlas_w atlas_h transparent in
  for_each (enumerate_from 0 files) (place cols size folder) (atlas, ∅).

(** [main]: the folder afterwards and how the run ended.  Both files are
    written after the loop, the atlas first, so an exception in the sort,
    in the loop or in [atlas.save] leaves the folder as it was.  With no
    file selected the canvas has height 0 and [atlas.save] raises. *)
Definition main_with (cols size : Z) (listing : list string)
    (folder : gmap string file) : gmap string file * result unit :=
  match pack cols size listing folder with
  | Ok (atlas, mapping) =>
      match save_png folder OUTPUT_IMAGE atlas with
      | Ok folder1 => (<[OUTPUT_JSON := Json mapping]> folder1, Ok ())
      | Raise e => (folder, Raise e)
      end
  | Raise e => (folder, Raise e)
  end.

Definition main := main_with ATLAS_COLS TILE_SIZE.

End Atlas.

(** ** tilebaker.py *)

Module Baker.

Definition TILE_SIZE : Z := 16.
Definition CHUNK_SIZE : Z := 16.
Definition MAP_COLS : Z := TILE_SIZE.
Definition MAP_ROWS : Z := TILE_SIZE.
Definition GRASS_TILE_ID : Z := 24.

Section Bake.
Variable blend : rgba → rgba → Z → rgba.
Variables tile_size chunk_size : Z.
Variable grass_tile : Image.

(** The body of the innermost loop. *)
Definition paste_cell (y x : Z) (chunk_img : Image) : result Image :=
  let px := x * tile_size in
  let py := y * tile_size in
  Ok (paste_masked blend chunk_img grass_tile grass_tile px py).

(** The body of the loop over [cx]; [saved] lists the [chunk_img.save]
    calls so far with their file names inside [OUTPUT_DIR]. *)
Definition bake_chunk (cy cx : Z) (saved : list (string * Image))
  : result (list (string * Image)) :=
  try! blank :=
    new (chunk_size * tile_size) (chunk_size * tile_size) transparent in
  try! chunk_img :=
    for_each (range chunk_size)
      (λ y, for_each (range chunk_size) (paste_cell y)) blank in
  let chunk_path :=
    "grass-chunk-" +:+ str cx +:+ "-" +:+ str cy +:+ ".png" in
  Ok (saved ++ [(chunk_path, chunk_img)]).

Definition bake (map_cols map_rows : Z)
  : result (list (string * Image)) :=
  try! chunk_cols := ceil_truediv map_cols chunk_size in
  try! chunk_rows := ceil_truediv map_rows chunk_size in
  for_each (range chunk_rows)
    (λ cy, for_each (range chunk_cols) (bake_chunk cy)) [].
End Bake.

(** The script with its constants, on the folder that holds the tiles. *)
Definition main (blend : rgba → rgba → Z → rgba)
    (folder : gmap string file) : result (list (string * Image)) :=
  try! grass_tile := open_rgba folder (str GRASS_TILE_ID +:+ ".png") in
  bake blend TILE_SIZE CHUNK_SIZE grass_tile MAP_COLS MAP_ROWS.

End Baker.

(** ** Auxiliary notions used in the statements and proofs *)

(** The cells of a grid with [w] columns and [h] rows in loop order, as
    pairs [(y, x)]: cell number [k] is in row [k / w], column [k mod w]. *)
Definition grid (h w : Z) : list (Z * Z) :=
  (λ k, (k / w, k mod w)) <$> range (h * w).

(** [c in s] for a character. *)
Fixpoint has_char (c : ascii) (s : string) : bool :=
  match s with
  | EmptyString => false
  | String a r => Ascii.eqb a c || has_char c r
  end.

Definition is_digit (c : ascii) : bool :=
  match digit_of c with Some _ => true | None => false end.

(** The names the renamer renames. *)
Definition renamable (f : string) : Prop :=
  Renamer.is_png f = true ∧
  ∃ x y, Renamer.parse_xy (splitext f).1 = Ok (x, y).

(** The crop box, the file name and the tile of the grid cell [c = (y, x)],
    and what the loop body saves for it. *)
Definition cell_box (tw th : Z) (c : Z * Z) : box :=
  (c.2 * tw, c.1 * th, c.2 * tw + tw, c.1 * th + th).

Definition cell_name (tw th : Z) (c : Z * Z) : string :=
  str (c.2 * tw) +:+ "_" +:+ str (c.1 * th) +:+ ".png".

Definition cell_tile (tileset : Image) (tw th : Z) (c : Z * Z) : Image :=
  mkImage (c.2 * tw + tw - c.2 * tw) (c.1 * th + th - c.1 * th)
    (λ x y, if inside tileset (x + c.2 * tw) (y + c.1 * th)
            then getpixel tileset (x + c.2 * tw) (y + c.1 * th)
            else transparent).

Definition cell_saves (tileset : Image) (tw th : Z) (skip_empty : bool)
    (c : Z * Z) : list (string * Image) :=
  if skip_empty then
    match getbbox (cell_tile tileset tw th c) with
    | None => []
    | Some _ => [(cell_name tw th c, cell_tile tileset tw th c)]
    end
  else [(cell_name tw th c, cell_tile tileset tw th c)].

(** The chunk after the first [n] cells have been pasted. *)
Definition chunk_stage (blend : rgba → rgba → Z → rgba) (ts cs : Z)
    (tile : Image) (n : nat) : Image :=
  foldl (λ img c, paste_masked blend img tile tile (c.2 * ts) (c.1 * ts))
    (mkImage (cs * ts) (cs * ts) (λ _ _, transparent))
    (take n (grid cs cs)).

Ltac leb_cases :=
  repeat match goal with
         | |- context [?a <=? ?b] => destruct (Z.leb_spec a b)
         end.

(** *** Small folders and images for the examples *)

(** A 16 by 16 tile of one opaque grey level. *)
Definition solid (n : Z) : Image := mkImage 16 16 (λ _ _, RGBA n n n 255).

(** The manifest a run of the atlas packer left in the folder. *)
Definition manifest_of (out : gmap string file * result unit)
  : option (gmap string Rect) :=
  match out.1 !! Atlas.OUTPUT_JSON with
  | Some (Json mapping) => Some mapping
  | _ => None
  end.

Definition tiles_1_2 : gmap string file :=
  <["1.png" := Png (solid 1)]> {["2.png" := Png (solid 2)]}.


Definition tiles_1_1 : gmap string file :=
  <["1.png" := Png (solid 1)]> {["1.PNG" := Png (solid 2)]}.

Definition gradient : Image := mkImage 40 33 (λ x y, RGBA x y 0 255).


Definition streak : Image :=
  mkImage 40 33 (λ x y, RGBA 9 9 9 (if x =? 17 then 200 else 0)).

(** *** Notions for the further properties *)

(** The name the renamer gives a file, [None] for a name it leaves. *)
Definition new_name_of (W : Z) (f : string) : option string :=
  if Renamer.is_png f then
    match Renamer.parse_xy (splitext f).1 with
    | Ok (x, y) => Some (str (Renamer.tile_id W x y) +:+ ".png")
    | Raise _ => None
    end
  else None.

(** The name under which a file is found after the renamer has run. *)
Definition final_name (W : Z) (f : string) : string :=
  default f (new_name_of W f).

(** The file a printed line of the renamer is about. *)
Definition line_file (ln : Renamer.line) : string :=
  match ln with
  | Renamer.Skipping f => f
  | Renamer.Renamed f _ => f
  end.

(** The [tile.save] and [chunk_img.save] calls of a run, carried out on the
    output folder. *)
Definition save_all (out : gmap string file) (saved : list (string * Image))
  : gmap string file :=
  foldl (λ m e, <[e.1 := Png e.2]> m) out saved.

(** The key of a PNG name in the atlas packer, when it has one. *)
Definition key_of (f : string) : option Z :=
  match Py.int (splitext f).1 with
  | Ok k => Some k
  | Raise _ => None
  end.

(** * Properties *)

(** ** The Python primitives on examples *)

Example int_plain : Py.int "144" = Ok 144.
Proof. reflexivity. Qed.
Example int_signed_padded : Py.int " -16 " = Ok (-16).
Proof. reflexivity. Qed.
Example int_grouped : Py.int "1_0" = Ok 10.
Proof. reflexivity. Qed.
Example int_bad_group : Py.int "1__0" = Raise ValueError.
Proof. reflexivity. Qed.
Example int_empty : Py.int "" = Raise ValueError.
Proof. reflexivity. Qed.
Example int_word : Py.int "tileset" = Raise ValueError.
Proof. reflexivity. Qed.
Example split_two : Py.split "_" "16_32" = ["16"; "32"].
Proof. reflexivity. Qed.
Example split_edge : Py.split "_" "_a_" = [""; "a"; ""].
Proof. reflexivity. Qed.
Example splitext_png : Py.splitext "16_32.png" = ("16_32", ".png").
Proof. reflexivity. Qed.
Example splitext_dots : Py.splitext "..png" = ("..png", "").
Proof. reflexivity. Qed.
Example splitext_two : Py.splitext "a.tar.PNG" = ("a.tar", ".PNG").
Proof. reflexivity. Qed.
Example str_neg : Py.str (-34) = "-34".
Proof. reflexivity. Qed.
Example str_zero : Py.str 0 = "0".
Proof. reflexivity. Qed.
Example lower_ext : Py.lower "7.PnG" = "7.png".
Proof. reflexivity. Qed.

(** ** The error monad and loops *)

Section Loops.
Context {A S : Type}.
Implicit Types (l : list A) (body : A → S → result S) (s : S).

Lemma for_each_app l1 l2 body s :
  for_each (l1 ++ l2) body s
  = Py.bind (for_each l1 body s) (for_each l2 body).
Proof.
  revert s. induction l1 as [|x l1 IH]; intros s; simpl; [done|].
  destruct (body x s); simpl; auto.
Qed.

End Loops.

(** A nested loop is one loop over the pairs, the outer index varying
    slowest. *)
Lemma for_each_nested {A B S} (la : list A) (lb : list B)
    (body : A → B → S → result S) (s : S) :
  for_each la (λ a, for_each lb (body a)) s
  = for_each (a ← la; b ← lb; [(a, b)]) (λ p, body p.1 p.2) s.
Proof.
  revert s. induction la as [|a la IH]; intros s; [done|].
  cbn [for_each]. rewrite bind_cons, for_each_app.
  assert (E : ∀ t, for_each (b ← lb; [(a, b)]) (λ p, body p.1 p.2) t
                   = for_each lb (body a) t).
  { clear. induction lb as [|b lb IH]; intros t; [done|].
    rewrite bind_cons. simpl. destruct (body a b t); simpl; auto. }
  rewrite E. destruct (for_each lb (body a) s); simpl; auto.
Qed.

(** A loop whose body appends what [g] gives for the element. *)
Lemma for_each_collect {A B} (l : list A) (g : A → list B)
    (body : A → list B → result (list B)) (acc : list B) :
  (∀ x acc, x ∈ l → body x acc = Ok (acc ++ g x)) →
  for_each l body acc = Ok (acc ++ (x ← l; g x)).
Proof.
  revert acc. induction l as [|x l IH]; intros acc H.
  - simpl. by rewrite app_nil_r.
  - rewrite bind_cons, app_assoc. cbn [for_each].
    rewrite H by left. cbn [Py.bind].
    apply IH. intros; apply H; by right.
Qed.

(** ** [range] and grids *)

Lemma range_length n : 0 ≤ n → Z.of_nat (length (range n)) = n.
Proof. intros. unfold range. rewrite length_fmap, length_seq. lia. Qed.

Lemma range_lookup n (k : nat) :
  Z.of_nat k < n → range n !! k = Some (Z.of_nat k).
Proof.
  intros. unfold range. rewrite list_lookup_fmap, lookup_seq_lt by lia.
  done.
Qed.

Lemma elem_of_range n x : x ∈ range n ↔ 0 ≤ x < n.
Proof.
  unfold range. rewrite list_elem_of_fmap. split.
  - intros (k & -> & Hk). apply elem_of_seq in Hk. lia.
  - intros H. exists (Z.to_nat x). split; [lia|]. apply elem_of_seq. lia.
Qed.

Lemma NoDup_range n : NoDup (range n).
Proof.
  unfold range. apply NoDup_fmap_2; [|apply NoDup_seq].
  intros a b. lia.
Qed.

Lemma range_succ (n : nat) :
  range (Z.of_nat (S n)) = range (Z.of_nat n) ++ [Z.of_nat n].
Proof.
  unfold range. rewrite !Nat2Z.id, seq_S, fmap_app. done.
Qed.

Lemma range_add (a b : nat) :
  range (Z.of_nat a + Z.of_nat b)
  = range (Z.of_nat a) ++ ((λ x, Z.of_nat a + x) <$> range (Z.of_nat b)).
Proof.
  induction b as [|b IH].
  - rewrite Z.add_0_r. simpl. by rewrite app_nil_r.
  - replace (Z.of_nat a + Z.of_nat (S b)) with (Z.of_nat (S (a + b))) by lia.
    rewrite !range_succ, fmap_app, app_assoc. simpl.
    rewrite <- IH. do 3 f_equal; lia.
Qed.

Lemma grid_row (n w : Z) (l : list Z) :
  Forall (λ x, 0 ≤ x < w) l →
  (x ← l; [(n, x)])
  = (λ k, (k / w, k mod w)) ∘ (λ x, n * w + x) <$> l.
Proof.
  induction 1 as [|x l Hx _ IHl]; [done|].
  rewrite bind_cons, fmap_cons, IHl. simpl. do 2 f_equal.
  - replace (n * w + x) with (x + n * w) by lia.
    rewrite Z.div_add, Z.div_small by lia. lia.
  - replace (n * w + x) with (x + n * w) by lia.
    rewrite Z.mod_add by lia. symmetry. apply Z.mod_small; lia.
Qed.

Lemma grid_rows h w :
  0 ≤ h → 0 ≤ w →
  (y ← range h; x ← range w; [(y, x)]) = grid h w.
Proof.
  intros Hh Hw. unfold grid.
  rewrite <- (Z2Nat.id h) by done. clear Hh.
  induction (Z.to_nat h) as [|n IH]; [done|].
  rewrite range_succ, bind_app, bind_singleton, IH.
  replace (Z.of_nat (S n) * w) with (Z.of_nat n * w + w) by lia.
  rewrite <- (Z2Nat.id (Z.of_nat n * w)) at 2 by lia.
  rewrite <- (Z2Nat.id w) at 4 by lia.
  rewrite range_add, fmap_app, !Z2Nat.id by lia. f_equal.
  rewrite <- list_fmap_compose. apply grid_row.
  apply Forall_forall. intros x. apply elem_of_range.
Qed.

Lemma grid_length h w : 0 ≤ h → 0 ≤ w → Z.of_nat (length (grid h w)) = h * w.
Proof. intros. unfold grid. rewrite length_fmap. apply range_length. nia. Qed.

Lemma grid_lookup h w (k : nat) :
  Z.of_nat k < h * w →
  grid h w !! k = Some (Z.of_nat k / w, Z.of_nat k mod w).
Proof.
  intros. unfold grid. by rewrite list_lookup_fmap, range_lookup.
Qed.

Lemma elem_of_grid h w y x :
  0 ≤ h → 0 ≤ w → (y, x) ∈ grid h w ↔ 0 ≤ y < h ∧ 0 ≤ x < w.
Proof.
  intros Hh Hw. split.
  - unfold grid. intros (k & [= -> ->] & Hk)%list_elem_of_fmap.
    apply elem_of_range in Hk.
    assert (0 < w) by nia.
    pose proof (Z.mod_pos_bound k w). pose proof (Z.div_pos k w).
    pose proof (Z.div_lt_upper_bound k w h). lia.
  - intros [Hy Hx]. rewrite <- grid_rows by done.
    apply list_elem_of_bind. exists y. rewrite elem_of_range. split; [|done].
    apply list_elem_of_bind. exists x. rewrite elem_of_range.
    split; [|done]. by apply list_elem_of_singleton.
Qed.

Lemma NoDup_grid h w : NoDup (grid h w).
Proof.
  unfold grid. destruct (decide (w = 0)) as [->|Hw].
  { rewrite Z.mul_0_r. constructor. }
  apply NoDup_fmap_2_strong; [|apply NoDup_range].
  intros a b _ _ [= Hd Hm].
  rewrite (Z.div_mod a w), (Z.div_mod b w) by done. congruence.
Qed.

(** A nested loop over two ranges is one loop over the grid. *)
Lemma for_each_grid {S} h w (body : Z → Z → S → result S) (s : S) :
  0 ≤ h → 0 ≤ w →
  for_each (range h) (λ y, for_each (range w) (body y)) s
  = for_each (grid h w) (λ c, body c.1 c.2) s.
Proof. intros. by rewrite for_each_nested, grid_rows. Qed.

(** ** Strings *)

Lemma append_nil s : "" +:+ s = s.
Proof. reflexivity. Qed.

Lemma append_cons a s t : String a s +:+ t = String a (s +:+ t).
Proof. reflexivity. Qed.

Lemma length_append s t :
  String.length (s +:+ t) = (String.length s + String.length t)%nat.
Proof. induction s as [|a s IH]; simpl; [done|]. by rewrite IH. Qed.

Lemma has_char_app c s t :
  has_char c (s +:+ t) = has_char c s || has_char c t.
Proof.
  induction s as [|a s IH]; simpl; [done|].
  rewrite IH. by rewrite orb_assoc.
Qed.

Lemma has_char_prefix c n s :
  has_char c (String.substring 0 n s) = true → has_char c s = true.
Proof.
  revert s. induction n as [|n IH]; intros [|a s]; simpl; try done.
  intros [H|H]%orb_true_iff; apply orb_true_iff; auto.
Qed.

Lemma has_char_stem c p :
  has_char c (splitext p).1 = true → has_char c p = true.
Proof.
  unfold splitext. case (_ && _); simpl; [apply has_char_prefix|done].
Qed.

Lemma split_no_sep sep s : has_char sep s = false → split sep s = [s].
Proof.
  induction s as [|a s IH]; simpl; [done|].
  intros [Ha Hs]%orb_false_iff. rewrite Ha, IH; done.
Qed.

Lemma app_sep_inj c u v s t :
  has_char c u = false → has_char c v = false →
  u +:+ String c s = v +:+ String c t → u = v ∧ s = t.
Proof.
  revert v. induction u as [|a u IH]; intros [|b v];
    rewrite ?append_nil, ?append_cons; simpl.
  - intros _ _ [= ->]. done.
  - intros _ [Hb _]%orb_false_iff [= -> _].
    by rewrite Ascii.eqb_refl in Hb.
  - intros [Ha _]%orb_false_iff _ [= -> _].
    by rewrite Ascii.eqb_refl in Ha.
  - intros [_ Hu]%orb_false_iff [_ Hv]%orb_false_iff [= -> E].
    destruct (IH v Hu Hv E) as [-> ->]. done.
Qed.

Lemma endswith_app p suffix : endswith (p +:+ suffix) suffix = true.
Proof.
  induction p as [|a p IH].
  - change ("" +:+ suffix) with suffix.
    destruct suffix; cbn [endswith]; by rewrite String.eqb_refl.
  - change (String a p +:+ suffix) with (String a (p +:+ suffix)).
    cbn [endswith]. rewrite IH. by case (String.eqb _ _).
Qed.

Lemma endswith_inv s suffix :
  endswith s suffix = true → ∃ p, s = p +:+ suffix.
Proof.
  induction s as [|a s IH]; cbn [endswith].
  - destruct (String.eqb_spec "" suffix) as [<-|]; [|done]. by exists "".
  - destruct (String.eqb_spec (String a s) suffix) as [<-|].
    + by exists "".
    + intros [p ->]%IH. by exists (String a p).
Qed.

Lemma lower_app s t : lower (s +:+ t) = lower s +:+ lower t.
Proof. induction s as [|a s IH]; simpl; [done|]. by rewrite IH. Qed.

Lemma lower_length s : String.length (lower s) = String.length s.
Proof. induction s as [|a s IH]; simpl; [done|]. by rewrite IH. Qed.

Lemma app_length_inj p q s t :
  String.length s = String.length t → p +:+ s = q +:+ t → p = q ∧ s = t.
Proof.
  revert q. induction p as [|a p IH]; intros [|b q] Hl;
    rewrite ?append_nil, ?append_cons.
  - done.
  - intros ->. simpl in Hl. rewrite length_append in Hl. lia.
  - intros <-. simpl in Hl. rewrite length_append in Hl. lia.
  - intros [= -> E]. destruct (IH q Hl E) as [-> ->]. done.
Qed.

(** *** Decimal numerals *)

Lemma string_of_uint_chars c d :
  has_char c (NilEmpty.string_of_uint d) = true → is_digit c = true.
Proof.
  induction d; cbn [NilEmpty.string_of_uint has_char]; try done;
    (intros [E%Ascii.eqb_eq|H]%orb_true_iff; [by subst c|auto]).
Qed.

Lemma str_chars c n :
  has_char c (str n) = true → c = "-"%char ∨ is_digit c = true.
Proof.
  unfold str.
  destruct (Z.to_int n) as [d|d]; cbn [NilEmpty.string_of_int has_char].
  - right. by eapply string_of_uint_chars.
  - intros [E%Ascii.eqb_eq|H]%orb_true_iff; [by left|].
    right. by eapply string_of_uint_chars.
Qed.

Lemma str_no_underscore n : has_char "_" (str n) = false.
Proof.
  destruct (has_char "_" (str n)) eqn:E; [|done].
  by destruct (str_chars _ _ E).
Qed.

Lemma str_no_dot n : has_char "." (str n) = false.
Proof.
  destruct (has_char "." (str n)) eqn:E; [|done].
  by destruct (str_chars _ _ E).
Qed.

Lemma str_inj a b : str a = str b → a = b.
Proof.
  unfold str. intros E. apply DecimalZ.to_int_inj.
  apply (f_equal NilEmpty.int_of_string) in E.
  rewrite !NilEmpty.isi in E. congruence.
Qed.

(** [int] raises nothing but [ValueError]. *)
Lemma int_digits_raises acc b s e :
  int_digits acc b s = Raise e → e = ValueError.
Proof.
  revert acc b. induction s as [|c s IH]; intros acc b; cbn [int_digits].
  - destruct b; congruence.
  - destruct (digit_of c); [apply IH|].
    destruct b; [|congruence].
    destruct (Ascii.eqb c "_"); [apply IH|].
    destruct (all_space _); congruence.
Qed.

Lemma int_raises s e : Py.int s = Raise e → e = ValueError.
Proof.
  unfold Py.int.
  assert (G : ∀ t, int_digits 0 false t = Raise e → e = ValueError)
    by (intros t; apply int_digits_raises).
  destruct (lstrip s) as [|c r]; [apply G|].
  destruct (Ascii.eqb_spec c "-") as [->|]; [|
    destruct (Ascii.eqb_spec c "+") as [->|]].
  - destruct (int_digits 0 false r) eqn:E; simpl; [done|].
    intros [= <-]. by eapply int_digits_raises.
  - apply G.
  - intros H. eapply (G (String c r)).
    revert H. destruct c as [[] [] [] [] [] [] [] []]; try done.
Qed.

(** A string that starts with anything but white space, a sign or a digit
    is no integer literal.  This holds of the separators [\x1c] to [\x1f]:
    [int] does not strip them from an ASCII string. *)
Lemma int_first_char c s :
  is_space c = false → digit_of c = None →
  c ≠ "-"%char → c ≠ "+"%char →
  Py.int (String c s) = Raise ValueError.
Proof.
  intros Hs Hd Hm Hp. unfold Py.int. cbn [lstrip]. rewrite Hs.
  assert (G : int_digits 0 false (String c s) = Raise ValueError)
    by (cbn [int_digits]; by rewrite Hd).
  destruct c as [[] [] [] [] [] [] [] []]; try exact G; congruence.
Qed.

Lemma int_separator_prefix (n : nat) s :
  (28 ≤ n ≤ 31)%nat → Py.int (String (ascii_of_nat n) s) = Raise ValueError.
Proof.
  intros Hn.
  assert (n = 28 ∨ n = 29 ∨ n = 30 ∨ n = 31)%nat as [->|[->|[->| ->]]]
    by lia; by apply int_first_char.
Qed.

(** So the renamer skips a name such as ["\x1f16_0.png"] and the packer's
    sort raises on ["\x1f5.png"]. *)
Lemma separator_stems_rejected :
  Renamer.parse_xy (String (ascii_of_nat 31) "16_0") = Raise ValueError ∧
  Atlas.sorted_files [String (ascii_of_nat 31) "5.png"; "2.png"]
  = Raise ValueError.
Proof. split; reflexivity. Qed.

(** ** The renamer *)

Section RenamerFacts.
Import Renamer.
Variable W : Z.
Implicit Types (st : gmap string file * list line) (f k : string).

Lemma parse_xy_no_underscore name :
  has_char "_" name = false → parse_xy name = Raise ValueError.
Proof.
  intros H. unfold parse_xy. rewrite split_no_sep by done.
  destruct (Py.int name) eqn:E; simpl; [done|].
  by rewrite (int_raises _ _ E).
Qed.

Lemma parse_xy_raises name e : parse_xy name = Raise e → e = ValueError.
Proof.
  unfold parse_xy.
  destruct (split "_" name) as [|a [|b [|c l]]]; [congruence|..].
  - destruct (Py.int a) eqn:Ea; simpl; [congruence|].
    intros [= <-]. by eapply int_raises.
  - destruct (Py.int a) eqn:Ea; simpl;
      [|intros [= <-]; by eapply int_raises].
    destruct (Py.int b) eqn:Eb; simpl; [done|].
    intros [= <-]. by eapply int_raises.
  - destruct (Py.int a) eqn:Ea; simpl;
      [|intros [= <-]; by eapply int_raises].
    destruct (Py.int b) eqn:Eb; simpl;
      [|intros [= <-]; by eapply int_raises].
    destruct (Py.int c) eqn:Ec; simpl; [congruence|].
    intros [= <-]. by eapply int_raises.
Qed.

Lemma renamable_underscore f : renamable f → has_char "_" f = true.
Proof.
  intros [_ (x & y & H)]. apply has_char_stem.
  destruct (has_char "_" (splitext f).1) eqn:E; [done|].
  by rewrite parse_xy_no_underscore in H.
Qed.

Lemma new_name_no_underscore n : has_char "_" (str n +:+ ".png") = false.
Proof. by rewrite has_char_app, str_no_underscore. Qed.

Lemma new_name_is_png n : is_png (str n +:+ ".png") = true.
Proof. apply endswith_app. Qed.

Lemma new_name_skipped n :
  parse_xy (splitext (str n +:+ ".png")).1 = Raise ValueError.
Proof.
  apply parse_xy_no_underscore.
  destruct (has_char "_" (splitext (str n +:+ ".png")).1) eqn:E; [|done].
  apply has_char_stem in E. by rewrite new_name_no_underscore in E.
Qed.

Lemma new_name_not_renamable n : ¬ renamable (str n +:+ ".png").
Proof.
  intros H%renamable_underscore. by rewrite new_name_no_underscore in H.
Qed.

(** The three ways through the loop body. *)
Lemma step_other f st : is_png f = false → step W f st = Ok st.
Proof. intros H. unfold step. by rewrite H. Qed.

Lemma step_skip f st :
  is_png f = true → (∀ x y, parse_xy (splitext f).1 ≠ Ok (x, y)) →
  step W f st = Ok (st.1, st.2 ++ [Skipping f]).
Proof.
  intros H Hp. unfold step. rewrite H.
  destruct (parse_xy _) as [[x y]|e] eqn:E; [by destruct (Hp x y)|].
  by rewrite (parse_xy_raises _ _ E).
Qed.

Lemma step_rename f st x y content :
  is_png f = true → parse_xy (splitext f).1 = Ok (x, y) →
  st.1 !! f = Some content →
  step W f st
  = Ok (<[str (tile_id W x y) +:+ ".png" := content]> (delete f st.1),
        st.2 ++ [Renamed f (str (tile_id W x y) +:+ ".png")]).
Proof.
  intros H Hp Hf. unfold step, rename. by rewrite H, Hp, Hf.
Qed.

(** Every name is either left alone, skipped or renamed. *)
Lemma step_cases f st st' :
  step W f st = Ok st' →
  (st' = st ∧ ¬ renamable f)
  ∨ (st' = (st.1, st.2 ++ [Skipping f]) ∧ ¬ renamable f)
  ∨ (∃ x y content,
       renamable f ∧ st.1 !! f = Some content ∧
       st' = (<[str (tile_id W x y) +:+ ".png" := content]>
                (delete f st.1),
              st.2 ++ [Renamed f (str (tile_id W x y) +:+ ".png")])).
Proof.
  destruct (is_png f) eqn:Hpng.
  2:{ rewrite step_other by done. intros [= <-]. left.
      split; [done|]. intros [? _]. congruence. }
  destruct (parse_xy (splitext f).1) as [[x y]|e] eqn:Hp.
  - destruct (st.1 !! f) as [content|] eqn:Hf.
    + rewrite (step_rename _ _ x y content) by done. intros [= <-].
      right; right. exists x, y, content. split_and!; try done.
      split; eauto.
    + unfold step, rename. rewrite Hpng, Hp, Hf. done.
  - rewrite step_skip by (done || congruence). intros [= <-].
    right; left. split; [done|]. intros [_ (x & y & ?)]. congruence.
Qed.

Lemma run_frame l st st' k :
  for_each l (step W) st = Ok st' →
  has_char "_" k = true → k ∉ l → st'.1 !! k = st.1 !! k.
Proof.
  revert st. induction l as [|f l IH]; intros st; simpl.
  { by intros [= <-]. }
  destruct (step W f st) as [st1|] eqn:E; [simpl|done].
  intros H Hk [Hne Hnl]%not_elem_of_cons.
  rewrite (IH _ H Hk Hnl).
  destruct (step_cases _ _ _ E) as [[-> _]|[[-> _]|(x & y & c & _ & _ & ->)]];
    try done.
  simpl. rewrite lookup_insert_ne, lookup_delete_ne; [done..|].
  intros <-. by rewrite new_name_no_underscore in Hk.
Qed.

Lemma run_ok l st :
  NoDup l → (∀ f, f ∈ l → renamable f → is_Some (st.1 !! f)) →
  ∃ st', for_each l (step W) st = Ok st'.
Proof.
  revert st. induction l as [|f l IH]; intros st Hnd Hin; simpl; [eauto|].
  apply NoDup_cons in Hnd as [Hf Hnd].
  assert (∃ st1, step W f st = Ok st1) as [st1 E].
  { destruct (is_png f) eqn:Hpng; [|rewrite step_other; eauto].
    destruct (parse_xy (splitext f).1) as [[x y]|e] eqn:Hp.
    - destruct (Hin f) as [c Hc]; [by left|split; eauto|].
      rewrite (step_rename _ _ x y c); eauto.
    - rewrite step_skip; eauto. congruence. }
  rewrite E. simpl. apply IH; [done|]. intros g Hg Hr.
  assert (st1.1 !! g = st.1 !! g) as ->.
  { apply (run_frame [f]); [by simpl; rewrite E| |].
    - by apply renamable_underscore.
    - apply not_elem_of_cons. split; [|apply not_elem_of_nil].
      intros ->. done. }
  apply Hin; [by right|done].
Qed.

(** A renamable name that is still there after the loop was there before
    and was not listed. *)
Lemma run_leftover l st st' k :
  for_each l (step W) st = Ok st' →
  is_Some (st'.1 !! k) → renamable k →
  is_Some (st.1 !! k) ∧ k ∉ l.
Proof.
  revert st. induction l as [|f l IH]; intros st; simpl.
  { intros [= <-] ? _. split; [done|apply not_elem_of_nil]. }
  destruct (step W f st) as [st1|] eqn:E; [simpl|done].
  intros H Hk Hr. destruct (IH _ H Hk Hr) as [Hk1 Hnl].
  rewrite not_elem_of_cons.
  destruct (step_cases _ _ _ E)
    as [[-> Hn]|[[-> Hn]|(x & y & c & _ & _ & ->)]].
  - split_and!; try done. by intros ->.
  - split_and!; try done. by intros ->.
  - simpl in Hk1. rewrite lookup_insert_ne in Hk1.
    2:{ intros <-. by apply new_name_not_renamable in Hr. }
    destruct (decide (f = k)) as [->|Hne].
    + rewrite lookup_delete_eq in Hk1. by destruct Hk1.
    + rewrite lookup_delete_ne in Hk1 by done. done.
Qed.

(** What the loop prints: the lines printed before, then lines of this
    run, whose renames all go to a name [<id>.png]. *)
Lemma run_lines l st st' :
  for_each l (step W) st = Ok st' →
  ∃ more, st'.2 = st.2 ++ more ∧
    ∀ a b, Renamed a b ∈ more → ∃ n, b = str n +:+ ".png".
Proof.
  revert st. induction l as [|f l IH]; intros st; simpl.
  { intros [= <-]. exists []. rewrite app_nil_r. split; [done|].
    by intros a b ?%elem_of_nil. }
  destruct (step W f st) as [st1|] eqn:E; [simpl|done].
  intros (more & -> & Hm)%IH.
  destruct (step_cases _ _ _ E)
    as [[-> Hn]|[[-> Hn]|(x & y & c & _ & _ & ->)]]; simpl.
  - eauto.
  - eexists. rewrite <- app_assoc. split; [done|].
    intros a b [[=]%list_elem_of_singleton|?]%elem_of_app. eauto.
  - eexists. rewrite <- app_assoc. split; [done|].
    intros a b [[= -> ->]%list_elem_of_singleton|?]%elem_of_app; eauto.
Qed.

(** A folder without renamable names is left as it is. *)
Lemma run_idle l st :
  (∀ f, f ∈ l → ¬ renamable f) →
  ∃ more, for_each l (step W) st = Ok (st.1, st.2 ++ more) ∧
    ∀ ln, ln ∈ more → ∃ f, ln = Skipping f.
Proof.
  revert st. induction l as [|f l IH]; intros [folder out] Hn; simpl.
  { exists []. rewrite app_nil_r. split; [done|].
    by intros ln ?%elem_of_nil. }
  destruct (step W f (folder, out)) as [st1|e] eqn:E.
  - destruct (step_cases _ _ _ E)
      as [[-> _]|[[-> _]|(x & y & c & Hr & _)]]; simpl.
    + apply IH. intros; apply Hn; by right.
    + destruct (IH (folder, out ++ [Skipping f])) as (more & -> & Hm).
      { intros; apply Hn; by right. }
      simpl. eexists. rewrite <- app_assoc. split; [done|].
      intros ln [->%list_elem_of_singleton|?]%elem_of_app; eauto.
    + destruct (Hn f); [by left|done].
  - exfalso. revert E. destruct (is_png f) eqn:Hpng.
    + rewrite step_skip; [done..|]. intros x y Hp.
      apply (Hn f); [by left|]. split; eauto.
    + by rewrite step_other.
Qed.
End RenamerFacts.

(** C1. A listed file [<x>_<y>.png] whose stem parses as the integers [x]
    and [y] is renamed to [<id>.png] with
    [id = floor(y/16)*W + floor(x/16) + 1]: the run ends well, its
    iteration for the file moves the file's content from the old name to
    the new one, and the rename is printed. *)
Theorem renamer_renames_to_tile_id
    (W : Z) (listing : list string) (folder : gmap string file)
    (filename : string) (x y : Z) (content : file) :
  NoDup listing →
  (∀ f, f ∈ listing → is_Some (folder !! f)) →
  filename ∈ listing →
  folder !! filename = Some content →
  Renamer.is_png filename = true →
  Renamer.parse_xy (splitext filename).1 = Ok (x, y) →
  ∃ before after mid final,
    listing = before ++ filename :: after ∧
    Renamer.run W (before ++ [filename]) folder = Ok mid ∧
    mid.1 !! filename = None ∧
    mid.1 !! (str (y / 16 * W + x / 16 + 1) +:+ ".png") = Some content ∧
    Renamer.run W listing folder = Ok final ∧
    Renamer.Renamed filename (str (y / 16 * W + x / 16 + 1) +:+ ".png")
      ∈ final.2.
Proof.
  intros Hnd Hdom Hin Hc Hpng Hp.
  change (y / 16 * W + x / 16 + 1) with (Renamer.tile_id W x y).
  set (new_name := str (Renamer.tile_id W x y) +:+ ".png").
  assert (Hr : renamable filename) by (split; eauto).
  destruct (run_ok W listing (folder, [])) as [final Hfinal];
    [done|by auto|].
  destruct (list_elem_of_split _ _ Hin) as (before & after & ->).
  apply NoDup_app in Hnd as (_ & Hnb & [Hna _]%NoDup_cons).
  exists before, after.
  change (before ++ filename :: after)
    with (before ++ [filename] ++ after) in Hfinal.
  rewrite app_assoc, for_each_app in Hfinal.
  destruct (for_each (before ++ [filename]) _ _) as [mid|] eqn:Hmid;
    [|done].
  exists mid, final. rewrite for_each_app in Hmid.
  destruct (for_each before _ _) as [st|] eqn:Hb; [|done].
  assert (Hst : st.1 !! filename = Some content).
  { rewrite (run_frame W before (folder, []) st); [done|done|..].
    - by apply renamable_underscore.
    - intros Hfb. apply (Hnb _ Hfb). by left. }
  simpl in Hmid, Hfinal.
  rewrite (step_rename W _ _ x y content) in Hmid by done.
  injection Hmid as <-.
  destruct (run_lines W _ _ _ Hfinal) as (more & Hmore & _).
  unfold Renamer.run. rewrite for_each_app, Hb. simpl.
  rewrite (step_rename W _ _ x y content) by done.
  split_and!; try done.
  - simpl. rewrite lookup_insert_ne, lookup_delete_eq; [done|].
    intros E. apply renamable_underscore in Hr.
    by rewrite <- E, new_name_no_underscore in Hr.
  - simpl. by rewrite lookup_insert_eq.
  - change (before ++ filename :: after)
      with (before ++ [filename] ++ after).
    rewrite app_assoc, for_each_app, for_each_app, Hb. simpl.
    by rewrite (step_rename W _ _ x y content).
  - rewrite Hmore. simpl. apply elem_of_app. left. apply elem_of_app.
    right. by apply list_elem_of_singleton.
Qed.

Lemma renamer_renames_to_tile_id_witness :
  ∃ before after mid final,
    ["1.png"; "16_32.png"] = before ++ "16_32.png" :: after ∧
    Renamer.run 17 (before ++ ["16_32.png"])
      (<["1.png" := Blob 1]> {["16_32.png" := Blob 7]}) = Ok mid ∧
    mid.1 !! "16_32.png" = None ∧
    mid.1 !! (str (32 / 16 * 17 + 16 / 16 + 1) +:+ ".png")
      = Some (Blob 7) ∧
    Renamer.run 17 ["1.png"; "16_32.png"]
      (<["1.png" := Blob 1]> {["16_32.png" := Blob 7]}) = Ok final ∧
    Renamer.Renamed "16_32.png"
      (str (32 / 16 * 17 + 16 / 16 + 1) +:+ ".png") ∈ final.2.
Proof.
  apply (renamer_renames_to_tile_id 17 ["1.png"; "16_32.png"]
           (<["1.png" := Blob 1]> {["16_32.png" := Blob 7]})
           "16_32.png" 16 32 (Blob 7)).
  - apply NoDup_cons. split.
    + intros H%list_elem_of_singleton. discriminate H.
    + apply NoDup_singleton.
  - intros f [->|[->|H%elem_of_nil]%elem_of_cons]%elem_of_cons;
      [by eexists..|done].
  - right. left.
  - reflexivity.
  - reflexivity.
  - reflexivity.
Defined.

(** C9. Running the renamer a second time changes nothing: the names the
    first run produces have no ["_"] in their stems, so the second run
    renames none of them (nor anything else) and leaves the folder as the
    first run left it.  This holds for every folder and every order of the
    two listings, in particular for the folders of valid names without
    colliding ids. *)
Theorem renamer_second_run_idle
    (W : Z) (listing : list string) (folder : gmap string file) :
  NoDup listing →
  (∀ f, f ∈ listing ↔ is_Some (folder !! f)) →
  ∃ folder1 out1,
    Renamer.run W listing folder = Ok (folder1, out1) ∧
    (∀ a b, Renamer.Renamed a b ∈ out1 →
       Renamer.is_png b = true ∧
       has_char "_" (splitext b).1 = false ∧
       Renamer.parse_xy (splitext b).1 = Raise ValueError) ∧
    ∀ listing2,
      (∀ f, f ∈ listing2 → is_Some (folder1 !! f)) →
      ∃ out2,
        Renamer.run W listing2 folder1 = Ok (folder1, out2) ∧
        ∀ ln, ln ∈ out2 → ∃ f, ln = Renamer.Skipping f.
Proof.
  intros Hnd Hdom.
  destruct (run_ok W listing (folder, [])) as [[folder1 out1] H1];
    [done|by intros; apply Hdom|].
  exists folder1, out1. split; [done|]. split.
  - destruct (run_lines W _ _ _ H1) as (more & E & Hm). simpl in E.
    subst out1. intros a b [n ->]%Hm. split_and!.
    + apply new_name_is_png.
    + destruct (has_char "_" _) eqn:Hu; [|done].
      apply has_char_stem in Hu. by rewrite new_name_no_underscore in Hu.
    + apply new_name_skipped.
  - intros listing2 H2.
    destruct (run_idle W listing2 (folder1, [])) as (out2 & E & Hs).
    { intros f Hf Hr.
      destruct (run_leftover W _ _ _ f H1 (H2 f Hf) Hr) as [Hin Hnot].
      apply Hnot, Hdom, Hin. }
    exists out2. done.
Qed.

Lemma renamer_second_run_idle_witness :
  ∃ folder1 out1,
    Renamer.run 17 ["0_0.png"; "x.png"]
      (<["0_0.png" := Blob 1]> {["x.png" := Blob 2]}) = Ok (folder1, out1) ∧
    (∀ a b, Renamer.Renamed a b ∈ out1 →
       Renamer.is_png b = true ∧
       has_char "_" (splitext b).1 = false ∧
       Renamer.parse_xy (splitext b).1 = Raise ValueError) ∧
    ∀ listing2,
      (∀ f, f ∈ listing2 → is_Some (folder1 !! f)) →
      ∃ out2,
        Renamer.run 17 listing2 folder1 = Ok (folder1, out2) ∧
        ∀ ln, ln ∈ out2 → ∃ f, ln = Renamer.Skipping f.
Proof.
  apply (renamer_second_run_idle 17 ["0_0.png"; "x.png"]
           (<["0_0.png" := Blob 1]> {["x.png" := Blob 2]})).
  - apply NoDup_cons. split.
    + intros H%list_elem_of_singleton. discriminate H.
    + apply NoDup_singleton.
  - intros f. rewrite !elem_of_cons, elem_of_nil. split.
    + intros [->|[->|[]]]; by eexists.
    + intros [c Hc].
      destruct (decide (f = "0_0.png")) as [->|N1]; [by left|].
      destruct (decide (f = "x.png")) as [->|N2]; [by right; left|].
      rewrite lookup_insert_ne, lookup_singleton_ne in Hc by done.
      discriminate Hc.
Defined.

(** ** The atlas packer *)

Section MapM.
Context {A B : Type} (f : A → result B).

Lemma map_m_ok l ys :
  map_m f l = Ok ys → Forall2 (λ x y, f x = Ok y) l ys.
Proof.
  revert ys. induction l as [|x l IH]; intros ys; simpl.
  { intros [= <-]. constructor. }
  destruct (f x) as [y|] eqn:E; [simpl|done].
  destruct (map_m f l) as [ys'|]; [simpl|done].
  intros [= <-]. constructor; auto.
Qed.

Lemma map_m_raises l x e :
  (∀ x e, f x = Raise e → e = ValueError) →
  x ∈ l → f x = Raise e → map_m f l = Raise ValueError.
Proof.
  intros Hv Hin Hx. induction l as [|a l IH]; [by apply elem_of_nil in Hin|].
  simpl. destruct (f a) as [b|e'] eqn:E; simpl.
  - apply elem_of_cons in Hin as [->|Hin]; [congruence|].
    by rewrite IH.
  - by rewrite (Hv _ _ E).
Qed.

(** Reordering the list reorders the results, or fails all the same. *)
Lemma map_m_perm l1 l2 :
  (∀ x e, f x = Raise e → e = ValueError) →
  l1 ≡ₚ l2 →
  match map_m f l1, map_m f l2 with
  | Ok ys1, Ok ys2 => ys1 ≡ₚ ys2
  | Raise e1, Raise e2 => e1 = e2
  | _, _ => False
  end.
Proof.
  intros Hv. induction 1 as [|x l1 l2 _ IH|x y l|l1 l2 l3 _ IH1 _ IH2].
  - simpl. constructor.
  - simpl. destruct (f x); simpl; [|done].
    destruct (map_m f l1), (map_m f l2); simpl; try done.
    by constructor.
  - simpl. destruct (f x) eqn:Ex, (f y) eqn:Ey; simpl; try done.
    + destruct (map_m f l); simpl; [by constructor|done].
    + by rewrite (Hv _ _ Ex), (Hv _ _ Ey).
  - destruct (map_m f l1), (map_m f l2), (map_m f l3);
      try done; by etrans.
Qed.
End MapM.

Lemma stem_key_raises f e : Atlas.stem_key f = Raise e → e = ValueError.
Proof.
  unfold Atlas.stem_key. destruct (Py.int _) eqn:E; simpl; [done|].
  intros [= <-]. by eapply int_raises.
Qed.

Lemma stem_key_ok f k g :
  Atlas.stem_key f = Ok (k, g) → g = f ∧ Py.int (splitext f).1 = Ok k.
Proof.
  unfold Atlas.stem_key. destruct (Py.int _); simpl; [|done].
  by intros [= -> ->].
Qed.

Lemma sorted_files_bad_stem listing f :
  f ∈ listing → Atlas.is_png f = true →
  (∀ k, Py.int (splitext f).1 ≠ Ok k) →
  Atlas.sorted_files listing = Raise ValueError.
Proof.
  intros Hin Hpng Hbad. unfold Atlas.sorted_files.
  destruct (Atlas.stem_key f) as [[k g]|e] eqn:E.
  { apply stem_key_ok in E as [_ E]. by destruct (Hbad k). }
  rewrite (map_m_raises _ _ f e); [done|apply stem_key_raises| |done].
  apply list_elem_of_In, filter_In. by rewrite <- list_elem_of_In.
Qed.



(** *** Sorting *)

Lemma insert_by_key_comm x y l :
  x.1 ≠ y.1 ∨ x = y →
  Atlas.insert_by_key x (Atlas.insert_by_key y l)
  = Atlas.insert_by_key y (Atlas.insert_by_key x l).
Proof.
  intros [Hne| ->]; [|done].
  induction l as [|z l IH]; simpl.
  - leb_cases; try done; lia.
  - leb_cases; simpl; leb_cases; try done; try lia.
    by rewrite IH.
Qed.

Lemma sort_by_key_perm l1 l2 :
  l1 ≡ₚ l2 →
  (∀ x y, x ∈ l1 → y ∈ l1 → x.1 = y.1 → x = y) →
  Atlas.sort_by_key l1 = Atlas.sort_by_key l2.
Proof.
  unfold Atlas.sort_by_key.
  induction 1 as [|x l1 l2 _ IH|x y l|l1 l2 l3 H12 IH1 _ IH2]; intros Hk.
  - done.
  - simpl. rewrite IH; [done|]. intros a b Ha Hb. apply Hk; by right.
  - simpl. apply insert_by_key_comm.
    destruct (decide (y.1 = x.1)) as [E|]; [right|by left].
    apply Hk; [by left|by right; left|done].
  - rewrite IH1 by done. apply IH2. intros a b Ha Hb.
    apply Hk; by rewrite H12.
Qed.

Lemma Forall2_elem_of_r {A B} (R : A → B → Prop) l k y :
  Forall2 R l k → y ∈ k → ∃ x, x ∈ l ∧ R x y.
Proof.
  induction 1 as [|a b l k Hab _ IH]; [by intros ?%elem_of_nil|].
  intros [->|Hy]%elem_of_cons.
  - exists a. split; [by left|done].
  - destruct (IH Hy) as (x & ? & ?). exists x. split; [by right|done].
Qed.




(** *** The packing loop *)

Lemma ceil_truediv_spec n c :
  1 ≤ c →
  ∃ rows, ceil_truediv n c = Ok rows ∧ (rows - 1) * c < n ≤ rows * c.
Proof.
  intros Hc. unfold ceil_truediv.
  destruct (Z.eqb_spec c 0); [lia|]. eexists. split; [done|].
  pose proof (Z.div_mod (- n) c). pose proof (Z.mod_pos_bound (- n) c). nia.
Qed.

Lemma tile_key_inj a b : "tile-" +:+ a = "tile-" +:+ b → a = b.
Proof. intros H. by injection H. Qed.

Section AtlasLoop.
Import Atlas.
Variables (cols size : Z) (folder : gmap string file).
Implicit Types (st : Image * gmap string Rect) (files : list string).

Lemma enumerate_from_app {A} (i : Z) (l1 l2 : list A) :
  enumerate_from i (l1 ++ l2)
  = enumerate_from i l1 ++ enumerate_from (i + Z.of_nat (length l1)) l2.
Proof.
  revert i. induction l1 as [|x l1 IH]; intros i; simpl.
  - by rewrite Z.add_0_r.
  - rewrite IH. do 3 f_equal. lia.
Qed.

Lemma place_ok i f st img :
  folder !! f = Some (Png img) →
  place cols size folder (i, f) st
  = Ok (paste st.1 img (i mod cols * size) (i / cols * size),
        <["tile-" +:+ (splitext f).1
            := mkRect (i mod cols * size) (i / cols * size) size size]>
          st.2).
Proof. intros H. unfold place, open_rgba. simpl. by rewrite H. Qed.

Lemma pack_loop_ok i files st :
  (∀ g, g ∈ files → ∃ im, folder !! g = Some (Png im)) →
  ∃ st', for_each (enumerate_from i files) (place cols size folder) st
         = Ok st' ∧
         width st'.1 = width st.1 ∧ height st'.1 = height st.1.
Proof.
  revert i st. induction files as [|f files IH]; intros i st Hall; simpl.
  { eauto. }
  destruct (Hall f) as [img Himg]; [by left|].
  rewrite (place_ok _ _ _ img) by done. simpl.
  destruct (IH (i + 1) (paste st.1 img (i mod cols * size)
                          (i / cols * size),
                        <["tile-" +:+ (splitext f).1
                            := mkRect (i mod cols * size)
                                 (i / cols * size) size size]> st.2))
    as (st' & -> & Hw & Hh).
  { intros; apply Hall; by right. }
  eauto.
Qed.

(** The loop touches only the keys of the files it packs. *)
Lemma pack_loop_frame i files st st' key :
  for_each (enumerate_from i files) (place cols size folder) st = Ok st' →
  (∀ g, g ∈ files → "tile-" +:+ (splitext g).1 ≠ key) →
  st'.2 !! key = st.2 !! key.
Proof.
  revert i st. induction files as [|f files IH]; intros i st; simpl.
  { by intros [= <-]. }
  unfold place at 1. simpl. destruct (open_rgba folder f); [simpl|done].
  intros H Hk. rewrite (IH _ _ H) by (intros; apply Hk; by right).
  simpl. apply lookup_insert_ne, Hk. by left.
Qed.
(** The loop leaves a pixel alone that lies in none of the boxes it pastes. *)
Lemma pack_loop_pixel i files st st' px py :
for_each (enumerate_from i files) (place cols size folder) st = Ok st' →
(∀ (j : nat) g im,
   files !! j = Some g → folder !! g = Some (Png im) →
   inside im (px - (i + Z.of_nat j) mod cols * size)
     (py - (i + Z.of_nat j) / cols * size) = false) →
getpixel st'.1 px py = getpixel st.1 px py.
Proof.
revert i st. induction files as [|f files IH]; intros i st; simpl.
{ by intros [= <-]. }
unfold place at 1, open_rgba. simpl.
destruct (folder !! f) as [[img| |]|] eqn:Hf; try done. simpl.
intros H Hout. rewrite (IH _ _ H).
- simpl. specialize (Hout 0%nat f img eq_refl Hf).
  rewrite Z.add_0_r in Hout. rewrite Hout. by rewrite andb_false_r.
- intros j g im Hj Hg. specialize (Hout (S j) g im Hj Hg).
  by replace (i + 1 + Z.of_nat j) with (i + Z.of_nat (S j)) by lia.
Qed.
End AtlasLoop.

(** Two different cells of the atlas grid share no pixel. *)
Lemma atlas_cells_disjoint cols size a b u v u' v' :
1 ≤ cols → 0 ≤ a → 0 ≤ b → a ≠ b →
0 ≤ u < size → 0 ≤ v < size → 0 ≤ u' < size → 0 ≤ v' < size →
a mod cols * size + u = b mod cols * size + u' →
a / cols * size + v = b / cols * size + v' →
False.
Proof.
intros Hc Ha Hb Hne Hu Hv Hu' Hv' Ex Ey.
assert (a mod cols = b mod cols) by nia.
assert (a / cols = b / cols) by nia.
apply Hne. rewrite (Z.div_mod a cols), (Z.div_mod b cols) by lia.
congruence.
Qed.

(** The two writes after the loop: they happen when the canvas has
    pixels, and a run that ended well has made them. *)
Lemma main_with_ok cols size listing folder atlas mapping :
  Atlas.pack cols size listing folder = Ok (atlas, mapping) →
  0 < width atlas → 0 < height atlas →
  Atlas.main_with cols size listing folder
  = (<[Atlas.OUTPUT_JSON := Json mapping]>
       (<[Atlas.OUTPUT_IMAGE := Png atlas]> folder), Ok ()).
Proof.
  intros E Hw Hh. unfold Atlas.main_with, save_png. rewrite E.
  destruct (Z.leb_spec (width atlas) 0); [lia|].
  destruct (Z.leb_spec (height atlas) 0); [lia|]. done.
Qed.

Lemma main_with_ok_inv cols size listing folder folder1 :
  Atlas.main_with cols size listing folder = (folder1, Ok ()) →
  ∃ atlas mapping,
    Atlas.pack cols size listing folder = Ok (atlas, mapping) ∧
    0 < width atlas ∧ 0 < height atlas ∧
    folder1 = <[Atlas.OUTPUT_JSON := Json mapping]>
                (<[Atlas.OUTPUT_IMAGE := Png atlas]> folder).
Proof.
  unfold Atlas.main_with, save_png.
  destruct (Atlas.pack cols size listing folder) as [[atlas mapping]|];
    [|done].
  destruct (Z.leb_spec (width atlas) 0); [done|].
  destruct (Z.leb_spec (height atlas) 0); [done|].
  intros [= <-]. by exists atlas, mapping.
Qed.

(** C2, as amended: the tile at sorted position [i] is pasted at pixel
    origin [(i mod C * size, i div C * size)] by iteration [i] of the
    packing loop, the atlas canvas is [C * size] wide and
    [ceil(N / C) * size] high, and the manifest entry of the tile is the
    rectangle with that origin and sides [size], provided no file later in
    packing order has the same stem; the tile size is positive, so the
    canvas has pixels and both files are written.  When no tile image is
    wider or higher than [size], the finished atlas shows the pixels of
    the tile at that origin. *)
Theorem atlas_layout
    (cols size : Z) (listing : list string) (folder : gmap string file)
    (files : list string) (i : nat) (f : string) :
  1 ≤ cols → 0 < size →
  Atlas.sorted_files listing = Ok files →
  (∀ g, g ∈ files → ∃ im, folder !! g = Some (Png im)) →
  files !! i = Some f →
  ∃ rows blank atlas mapping img before,
    (rows - 1) * cols < Z.of_nat (length files) ≤ rows * cols ∧
    new (cols * size) (rows * size) transparent = Ok blank ∧
    Atlas.main_with cols size listing folder
    = (<[Atlas.OUTPUT_JSON := Json mapping]>
         (<[Atlas.OUTPUT_IMAGE := Png atlas]> folder), Ok ()) ∧
    width atlas = cols * size ∧ height atlas = rows * size ∧
    folder !! f = Some (Png img) ∧
    for_each (Atlas.enumerate_from 0 (take i files))
      (Atlas.place cols size folder) (blank, ∅) = Ok before ∧
    for_each (Atlas.enumerate_from 0 (take (S i) files))
      (Atlas.place cols size folder) (blank, ∅)
    = Ok (paste before.1 img (Z.of_nat i mod cols * size)
            (Z.of_nat i / cols * size),
          <["tile-" +:+ (splitext f).1
              := mkRect (Z.of_nat i mod cols * size)
                   (Z.of_nat i / cols * size) size size]> before.2) ∧
    ((∀ j g, (i < j)%nat → files !! j = Some g →
        (splitext g).1 ≠ (splitext f).1) →
     mapping !! ("tile-" +:+ (splitext f).1)
     = Some (mkRect (Z.of_nat i mod cols * size)
               (Z.of_nat i / cols * size) size size)) ∧
    ((∀ g im, g ∈ files → folder !! g = Some (Png im) →
        width im ≤ size ∧ height im ≤ size) →
     ∀ u v, 0 ≤ u < width img → 0 ≤ v < height img →
       getpixel atlas (Z.of_nat i mod cols * size + u)
         (Z.of_nat i / cols * size + v)
       = getpixel img u v).
Proof.
  intros Hcols Hsize Hsorted Hall Hi.
  destruct (ceil_truediv_spec (Z.of_nat (length files)) cols Hcols)
    as (rows & Hrows & Hceil).
  assert (0 ≤ rows) by nia.
  set (blank := mkImage (cols * size) (rows * size) (λ _ _, transparent)).
  assert (Hnew : new (cols * size) (rows * size) transparent = Ok blank).
  { unfold new. destruct (Z.ltb_spec (cols * size) 0); [nia|].
    destruct (Z.ltb_spec (rows * size) 0); [nia|]. done. }
  destruct (pack_loop_ok cols size folder 0 files (blank, ∅) Hall)
    as ([atlas mapping] & Hloop & Hw & Hh).
  destruct (Hall f) as [img Himg]; [by eapply list_elem_of_lookup_2|].
  pose proof (lookup_lt_Some _ _ _ Hi) as Hlt.
  pose proof Hloop as Hsplit.
  rewrite <- (take_drop_middle files i f Hi) in Hsplit.
  rewrite enumerate_from_app, for_each_app in Hsplit.
  destruct (for_each (Atlas.enumerate_from 0 (take i files)) _ _)
    as [before|] eqn:Hbefore; [|done].
  rewrite length_take_le in Hsplit by lia.
  simpl in Hsplit. rewrite (place_ok _ _ _ _ _ _ img) in Hsplit by done.
  simpl in Hsplit.
  exists rows, blank, atlas, mapping, img, before.
  split; [done|]. split; [done|]. split; [|split; [done|]].
  2: split; [done|]. 2: split; [done|]. 2: split; [done|]. 2: split.
  3: split.
  - simpl in Hw, Hh. apply main_with_ok; [|nia..].
    unfold Atlas.pack. rewrite Hsorted. simpl.
    rewrite Hrows. simpl. rewrite Hnew. simpl. exact Hloop.
  - rewrite (take_S_r _ _ f Hi), enumerate_from_app, for_each_app, Hbefore.
    rewrite length_take_le by lia. simpl.
    by rewrite (place_ok _ _ _ _ _ _ img).
  - intros Hlater.
    rewrite (pack_loop_frame _ _ _ _ _ _ _ _ Hsplit).
    + simpl. apply lookup_insert_eq.
    + intros g Hg E%tile_key_inj.
      apply list_elem_of_lookup in Hg as [j Hj].
      rewrite lookup_drop in Hj.
      apply (Hlater (S i + j)%nat g); [lia|done|done].
  - intros Hsz u v Hu Hv.
    destruct (Hsz f img) as [Hwi Hhi];
      [by eapply list_elem_of_lookup_2|done|].
    destruct (pack_loop_ok cols size folder 0 (take i files) (blank, ∅))
      as (before' & Hb' & Hbw & Hbh).
    { intros g Hg. apply Hall. by eapply subseteq_take. }
    rewrite Hbefore in Hb'. injection Hb' as <-. simpl in Hbw, Hbh.
    pose proof (Z.mod_pos_bound (Z.of_nat i) cols).
    pose proof (Z.div_pos (Z.of_nat i) cols).
    pose proof (Z.div_lt_upper_bound (Z.of_nat i) cols rows).
    rewrite (pack_loop_pixel _ _ _ _ _ _ _ _ _ Hsplit).
    + simpl. unfold inside, in_range. rewrite Hbw, Hbh, !Z.add_0_l.
      replace (Z.of_nat i mod cols * size + u - Z.of_nat i mod cols * size)
        with u by lia.
      replace (Z.of_nat i / cols * size + v - Z.of_nat i / cols * size)
        with v by lia.
      repeat match goal with
             | |- context [?a <=? ?b] => destruct (Z.leb_spec a b); [|nia]
             | |- context [?a <? ?b] => destruct (Z.ltb_spec a b); [|nia]
             end.
      done.
    + intros j g im Hj Hg. rewrite lookup_drop in Hj.
      destruct (Hsz g im) as [Hwg Hhg];
        [by eapply list_elem_of_lookup_2|done|].
      destruct (inside im _ _) eqn:Hin; [exfalso|done].
      unfold inside, in_range in Hin.
      apply andb_true_iff in Hin
        as [[?%Z.leb_le ?%Z.ltb_lt]%andb_true_iff
              [?%Z.leb_le ?%Z.ltb_lt]%andb_true_iff].
      clear H H0 H1 Hsplit.
      remember (0 + Z.of_nat i + 1 + Z.of_nat j) as b eqn:Eb.
      assert (Hb : 0 ≤ b ∧ Z.of_nat i ≠ b) by lia. clear Eb.
      remember (Z.of_nat i mod cols * size) as xi.
      remember (Z.of_nat i / cols * size) as yi.
      remember (b mod cols * size) as xb.
      remember (b / cols * size) as yb.
      apply (atlas_cells_disjoint cols size (Z.of_nat i) b u v
               (xi + u - xb) (yi + v - yb));
        subst; lia.
Qed.

Lemma atlas_layout_witness :
  ∃ atlas mapping,
    Atlas.main_with 16 16 ["2.png"; "1.png"] tiles_1_2
    = (<[Atlas.OUTPUT_JSON := Json mapping]>
         (<[Atlas.OUTPUT_IMAGE := Png atlas]> tiles_1_2), Ok ()) ∧
    width atlas = 256 ∧ height atlas = 16 ∧
    mapping !! "tile-2" = Some (mkRect 16 0 16 16) ∧
    getpixel atlas (16 + 3) (0 + 4) = RGBA 2 2 2 255.
Proof.
  destruct (atlas_layout 16 16 ["2.png"; "1.png"] tiles_1_2
              ["1.png"; "2.png"] 1 "2.png")
    as (rows & blank & atlas & mapping & img & before
        & Hc & Hn & Hm & Hw & Hh & Hf & Hb & Hs & Hk & Hpx).
  - lia.
  - lia.
  - reflexivity.
  - intros g [->|Hg]%elem_of_cons;
      [|apply list_elem_of_singleton in Hg as ->]; by eexists.
  - reflexivity.
  - exists atlas, mapping. simpl in Hc.
    assert (rows = 1) as -> by lia.
    injection Hf as <-.
    split; [exact Hm|]. split; [exact Hw|]. split; [exact Hh|]. split.
    + apply Hk. intros [|[|j]] g Hj; [lia|lia|done].
    + apply (Hpx ltac:(intros g im [->|Hg]%elem_of_cons;
                         [|apply list_elem_of_singleton in Hg as ->];
                         intros Him; vm_compute in Him;
                         injection Him as <-; split; discriminate) 3 4);
        split; reflexivity || discriminate.
Defined.

(** C2, as stated, fails: ["1.png"] and ["1.PNG"] are both packed and share
    the stem ["1"], so the manifest has one entry ["tile-1"], which holds
    the rectangle of position 1, not that of ["1.png"] at position 0. *)
Lemma atlas_manifest_shared_stem :
  Atlas.sorted_files ["1.png"; "1.PNG"] = Ok ["1.png"; "1.PNG"] ∧
  ["1.png"; "1.PNG"] !! 0%nat = Some "1.png" ∧
  (manifest_of (Atlas.main ["1.png"; "1.PNG"] tiles_1_1)
     ≫= (.!! ("tile-" +:+ (splitext "1.png").1)))
  = Some (mkRect 16 0 16 16) ∧
  (manifest_of (Atlas.main ["1.png"; "1.PNG"] tiles_1_1)
     ≫= (.!! ("tile-" +:+ (splitext "1.png").1)))
  ≠ Some (mkRect (0 mod 16 * 16) (0 / 16 * 16) 16 16).
Proof.
  split; [reflexivity|]. split; [reflexivity|].
  assert (E : (manifest_of (Atlas.main ["1.png"; "1.PNG"] tiles_1_1)
                 ≫= (.!! ("tile-" +:+ (splitext "1.png").1)))
              = Some (mkRect 16 0 16 16)) by (vm_compute; reflexivity).
  split; [exact E|]. rewrite E. discriminate.
Qed.

(** C8, as amended: the atlas packer selects a name whatever the case of
    its [.png] extension; the renamer selects it exactly when the extension
    is the lower-case [.png]. *)
Theorem extension_case (stem ext : string) :
  lower ext = ".png" →
  Atlas.is_png (stem +:+ ext) = true ∧
  (Renamer.is_png (stem +:+ ext) = true ↔ ext = ".png").
Proof.
  intros Hext. split; [|split].
  - unfold Atlas.is_png. rewrite lower_app, Hext. apply endswith_app.
  - intros [p E]%endswith_inv.
    apply app_length_inj in E as [_ E]; [done|].
    by rewrite <- (lower_length ext), Hext.
  - intros ->. apply endswith_app.
Qed.

Lemma extension_case_witness :
  Atlas.is_png ("7" +:+ ".PnG") = true ∧
  (Renamer.is_png ("7" +:+ ".PnG") = true ↔ ".PnG" = ".png").
Proof. apply (extension_case "7" ".PnG"). reflexivity. Defined.

(** C8, as stated, fails for the renamer: it passes over ["0_0.PNG"]
    without a rename or a printed line, while it renames ["0_0.png"]. *)
Lemma renamer_ignores_upper_case_extension :
  lower ".PNG" = ".png" ∧
  Atlas.is_png "0_0.PNG" = true ∧
  Renamer.is_png "0_0.PNG" = false ∧
  Renamer.main ["0_0.PNG"] {["0_0.PNG" := Blob 0]}
  = Ok ({["0_0.PNG" := Blob 0]}, []) ∧
  Renamer.main ["0_0.png"] {["0_0.png" := Blob 0]}
  = Ok ({["1.png" := Blob 0]}, [Renamer.Renamed "0_0.png" "1.png"]).
Proof. repeat split; vm_compute; reflexivity. Qed.

(** ** The splitter *)

Lemma range_max n : range n = range (Z.max 0 n).
Proof. unfold range. do 2 f_equal. lia. Qed.

Section SplitterFacts.
Import Splitter.
Variables (tileset : Image) (tw th : Z).
Hypotheses (Htw : 0 < tw) (Hth : 0 < th).

Lemma crop_cell c :
  crop tileset (cell_box tw th c) = Ok (cell_tile tileset tw th c).
Proof.
  unfold crop, cell_box.
  destruct (Z.ltb_spec (c.2 * tw + tw) (c.2 * tw)); [lia|].
  destruct (Z.ltb_spec (c.1 * th + th) (c.1 * th)); [lia|]. done.
Qed.

Lemma save_cell_saves skip_empty c saved :
  save_cell tileset tw th skip_empty c.1 c.2 saved
  = Ok (saved ++ cell_saves tileset tw th skip_empty c).
Proof.
  unfold save_cell. fold (cell_box tw th c). rewrite crop_cell. simpl.
  unfold cell_saves. destruct skip_empty; [|done].
  destruct (getbbox _); [done|]. by rewrite app_nil_r.
Qed.

Lemma split_tileset_cells skip_empty :
  split_tileset tileset tw th skip_empty
  = Ok (c ← grid (Z.max 0 (height tileset / th))
              (Z.max 0 (width tileset / tw));
        cell_saves tileset tw th skip_empty c).
Proof.
  unfold split_tileset, floordiv.
  destruct (Z.eqb_spec tw 0); [lia|]. destruct (Z.eqb_spec th 0); [lia|].
  simpl.
  rewrite (range_max (height _ / _)), (range_max (width _ / _)).
  rewrite for_each_grid by lia.
  rewrite (for_each_collect _ (cell_saves tileset tw th skip_empty));
    [done|].
  intros c acc _. apply save_cell_saves.
Qed.

Lemma cell_name_inj c1 c2 :
  cell_name tw th c1 = cell_name tw th c2 → c1 = c2.
Proof.
  unfold cell_name. destruct c1 as [y1 x1], c2 as [y2 x2]. simpl.
  intros [Ex E]%app_sep_inj; [|apply str_no_underscore..].
  change ".png" with (String "."%char "png") in E.
  apply app_sep_inj in E as [Ey _]; [|apply str_no_dot..].
  apply str_inj in Ex, Ey. f_equal; nia.
Qed.

Lemma elem_of_cell_saves skip_empty c e :
  e ∈ cell_saves tileset tw th skip_empty c →
  e = (cell_name tw th c, cell_tile tileset tw th c).
Proof.
  unfold cell_saves. destruct skip_empty; [destruct (getbbox _)|];
    by intros ?%list_elem_of_singleton || intros ?%elem_of_nil.
Qed.

(** The tile of a cell of the grid shows the pixels of its box. *)
Lemma cell_tile_pixel c i j :
  0 ≤ c.2 < width tileset / tw → 0 ≤ c.1 < height tileset / th →
  0 ≤ i < tw → 0 ≤ j < th →
  getpixel (cell_tile tileset tw th c) i j
  = getpixel tileset (c.2 * tw + i) (c.1 * th + j).
Proof.
  intros Hx Hy Hi Hj. simpl.
  pose proof (Z.mul_div_le (width tileset) tw Htw).
  pose proof (Z.mul_div_le (height tileset) th Hth).
  unfold inside, in_range.
  destruct (Z.leb_spec 0 (i + c.2 * tw)); [|nia].
  destruct (Z.ltb_spec (i + c.2 * tw) (width tileset)); [|nia].
  destruct (Z.leb_spec 0 (j + c.1 * th)); [|nia].
  destruct (Z.ltb_spec (j + c.1 * th) (height tileset)); [|nia].
  simpl. f_equal; lia.
Qed.
End SplitterFacts.

(** *** Empty tiles *)

Lemma elem_of_coords im x y :
  (x, y) ∈ coords im ↔ 0 ≤ x < width im ∧ 0 ≤ y < height im.
Proof.
  unfold coords. rewrite list_elem_of_bind. split.
  - intros (y' & (x' & [= -> ->]%list_elem_of_singleton & Hx)%list_elem_of_bind
            & Hy).
    by rewrite <- !elem_of_range.
  - intros [Hx Hy]. exists y. rewrite elem_of_range. split; [|done].
    apply list_elem_of_bind. exists x. rewrite elem_of_range.
    split; [|done]. by apply list_elem_of_singleton.
Qed.

(** [getbbox] is [None] exactly when every pixel has alpha 0. *)
Lemma getbbox_None im :
  getbbox im = None ↔
  ∀ x y, 0 ≤ x < width im → 0 ≤ y < height im →
         alpha (getpixel im x y) = 0.
Proof.
  unfold getbbox. split.
  - destruct (filter _ _) as [|p ps] eqn:E; [|done].
    intros _ x y Hx Hy.
    destruct (decide (alpha (getpixel im x y) = 0)) as [|Hne]; [done|].
    exfalso. eapply (filter_nil_not_elem_of _ _ (x, y) E); [done|].
    by apply elem_of_coords.
  - intros Hall. destruct (filter _ _) as [|p ps] eqn:E; [done|].
    assert (Hp : p ∈ filter (λ p, alpha (getpixel im p.1 p.2) ≠ 0)
                   (coords im)) by (rewrite E; left).
    apply list_elem_of_filter in Hp as [Hne Hin]. destruct p as [x y].
    apply elem_of_coords in Hin as [Hx Hy]. by destruct Hne; apply Hall.
Qed.

Lemma bind_singleton_fmap {A B} (g : A → B) (l : list A) :
  (x ← l; [g x]) = g <$> l.
Proof.
  induction l as [|a l IH]; [done|]. by rewrite bind_cons, IH.
Qed.

(** C3. Without [skip_empty] the splitter saves exactly
    [floor(W/tw) * floor(H/th)] tiles, row by row ([y] outer, [x] inner):
    save number [k] is the tile of grid cell [(x, y)] with
    [x = k mod floor(W/tw)] and [y = k div floor(W/tw)], named
    [<x*tw>_<y*th>.png], a [tw] by [th] image showing the pixels of its
    box; every box lies left of column [floor(W/tw)*tw] and above row
    [floor(H/th)*th], so no pixel of a trailing strip is in any tile. *)
Theorem splitter_saves_grid (tileset : Image) (tw th : Z) :
  0 < tw → 0 < th → 0 ≤ width tileset → 0 ≤ height tileset →
  ∃ saved,
    Splitter.split_tileset tileset tw th false = Ok saved ∧
    Z.of_nat (length saved) = (width tileset / tw) * (height tileset / th) ∧
    ∀ k : nat,
      Z.of_nat k < (width tileset / tw) * (height tileset / th) →
      ∃ x y tile,
        x = Z.of_nat k mod (width tileset / tw) ∧
        y = Z.of_nat k / (width tileset / tw) ∧
        0 ≤ x < width tileset / tw ∧ 0 ≤ y < height tileset / th ∧
        saved !! k
        = Some (str (x * tw) +:+ "_" +:+ str (y * th) +:+ ".png", tile) ∧
        crop tileset (x * tw, y * th, x * tw + tw, y * th + th) = Ok tile ∧
        width tile = tw ∧ height tile = th ∧
        (∀ i j, 0 ≤ i < tw → 0 ≤ j < th →
           getpixel tile i j = getpixel tileset (x * tw + i) (y * th + j)) ∧
        (∀ px py,
           in_box (x * tw, y * th, x * tw + tw, y * th + th) px py = true →
           0 ≤ px < width tileset / tw * tw ∧
           0 ≤ py < height tileset / th * th).
Proof.
  intros Htw Hth HW HH.
  rewrite split_tileset_cells by done.
  pose proof (Z.mul_div_le (width tileset) tw Htw) as Hwle.
  pose proof (Z.mul_div_le (height tileset) th Hth) as Hhle.
  remember (width tileset / tw) as w eqn:Ew.
  remember (height tileset / th) as h eqn:Eh.
  assert (Hw : 0 ≤ w) by (subst w; apply Z.div_pos; lia).
  assert (Hh : 0 ≤ h) by (subst h; apply Z.div_pos; lia).
  rewrite !Z.max_r by done. unfold cell_saves.
  rewrite (bind_singleton_fmap
             (λ c, (cell_name tw th c, cell_tile tileset tw th c))).
  eexists. split; [done|]. split.
  { rewrite length_fmap, grid_length by done. lia. }
  intros k Hk.
  assert (0 < w) by nia.
  assert (Hk' : Z.of_nat k < h * w) by lia.
  pose proof (Z.mod_pos_bound (Z.of_nat k) w).
  pose proof (Z.div_pos (Z.of_nat k) w).
  pose proof (Z.div_lt_upper_bound (Z.of_nat k) w h).
  set (c := (Z.of_nat k / w, Z.of_nat k mod w)).
  exists (Z.of_nat k mod w), (Z.of_nat k / w), (cell_tile tileset tw th c).
  split; [done|]. split; [done|]. split; [lia|]. split; [lia|].
  split. { rewrite list_lookup_fmap, grid_lookup by done. done. }
  split. { apply (crop_cell tileset tw th Htw Hth c). }
  split. { simpl. lia. }
  split. { simpl. lia. }
  split.
  - intros i j Hi Hj. apply (cell_tile_pixel tileset tw th Htw Hth c);
      simpl; rewrite <- ?Ew, <- ?Eh; lia.
  - intros px py. unfold in_box, in_range.
    intros [[? ?]%andb_true_iff [? ?]%andb_true_iff]%andb_true_iff.
    nia.
Qed.

Lemma splitter_saves_grid_witness :
  ∃ saved,
    Splitter.split_tileset gradient 16 16
      false = Ok saved ∧
    Z.of_nat (length saved) = (40 / 16) * (33 / 16) ∧
    ∃ tile,
      saved !! 3%nat = Some ("16_16.png", tile) ∧
      getpixel tile 2 5 = RGBA 18 21 0 255.
Proof.
  destruct (splitter_saves_grid gradient
              16 16) as (saved & Hs & Hl & Hk);
    [lia|lia|simpl; lia|simpl; lia|].
  exists saved. split; [exact Hs|]. split; [exact Hl|].
  destruct (Hk 3%nat) as (x & y & tile & -> & -> & _ & _ & Hsave & _ & _
                           & _ & Hpix & _); [reflexivity|].
  exists tile. split; [exact Hsave|]. apply (Hpix 2 5); lia.
Defined.

Lemma bind_all_nil {A B} (f : A → list B) (l : list A) :
  (∀ x, x ∈ l → f x = []) → l ≫= f = [].
Proof.
  induction l as [|a l IH]; intros H; [done|].
  rewrite bind_cons, (H a), IH; [done| |by left].
  intros; apply H; by right.
Qed.

Lemma cell_saved_iff tileset tw th c saved :
  0 < tw → 0 < th → 0 ≤ width tileset → 0 ≤ height tileset →
  0 ≤ c.2 < width tileset / tw → 0 ≤ c.1 < height tileset / th →
  Splitter.split_tileset tileset tw th true = Ok saved →
  (cell_name tw th c, cell_tile tileset tw th c) ∈ saved
  ↔ getbbox (cell_tile tileset tw th c) ≠ None.
Proof.
  intros Htw Hth HW HH Hx Hy. rewrite split_tileset_cells by done.
  intros [= <-]. rewrite list_elem_of_bind. split.
  - intros (c' & He & _). unfold cell_saves in He.
    destruct (getbbox (cell_tile tileset tw th c')) eqn:E;
      [|by apply elem_of_nil in He].
    apply list_elem_of_singleton in He. injection He as Hn _.
    apply cell_name_inj in Hn; [|done..]. subst c'. by rewrite E.
  - intros Hb. exists c. split.
    + unfold cell_saves. destruct (getbbox _); [by left|done].
    + destruct c as [y x]. apply elem_of_grid; [lia..|].
      simpl in Hx, Hy. lia.
Qed.

(** C4. With [skip_empty] the splitter discards the tile of a grid cell
    exactly when every pixel of the tile has alpha 0, which is what the
    [getbbox] test decides; it saves nothing but tiles of grid cells; and
    it saves no tile at all of a source image whose pixels all have
    alpha 0. *)
Theorem splitter_skips_transparent (tileset : Image) (tw th : Z) :
  0 < tw → 0 < th → 0 ≤ width tileset → 0 ≤ height tileset →
  ∃ saved,
    Splitter.split_tileset tileset tw th true = Ok saved ∧
    (∀ x y,
       0 ≤ x < width tileset / tw → 0 ≤ y < height tileset / th →
       ∃ tile,
         crop tileset (x * tw, y * th, x * tw + tw, y * th + th) = Ok tile ∧
         (getbbox tile = None ↔
          ∀ i j, 0 ≤ i < tw → 0 ≤ j < th → alpha (getpixel tile i j) = 0) ∧
         ((str (x * tw) +:+ "_" +:+ str (y * th) +:+ ".png", tile) ∉ saved
          ↔ ∀ i j, 0 ≤ i < tw → 0 ≤ j < th →
                   alpha (getpixel tile i j) = 0)) ∧
    (∀ e, e ∈ saved →
       ∃ x y,
         0 ≤ x < width tileset / tw ∧ 0 ≤ y < height tileset / th ∧
         e.1 = str (x * tw) +:+ "_" +:+ str (y * th) +:+ ".png" ∧
         crop tileset (x * tw, y * th, x * tw + tw, y * th + th)
         = Ok e.2) ∧
    ((∀ px py, 0 ≤ px < width tileset → 0 ≤ py < height tileset →
               alpha (getpixel tileset px py) = 0) →
     saved = []).
Proof.
  intros Htw Hth HW HH.
  destruct (Splitter.split_tileset tileset tw th true) as [saved|e] eqn:E;
    [|by rewrite split_tileset_cells in E].
  exists saved. split; [done|].
  assert (Hw : 0 ≤ width tileset / tw) by (apply Z.div_pos; lia).
  assert (Hh : 0 ≤ height tileset / th) by (apply Z.div_pos; lia).
  split; [|split].
  - intros x y Hx Hy. exists (cell_tile tileset tw th (y, x)).
    assert (Hb : getbbox (cell_tile tileset tw th (y, x)) = None ↔
                 ∀ i j, 0 ≤ i < tw → 0 ≤ j < th →
                   alpha (getpixel (cell_tile tileset tw th (y, x)) i j)
                   = 0).
    { rewrite getbbox_None. simpl.
      split; intros H i j Hi Hj; apply H; lia. }
    split; [apply (crop_cell tileset tw th Htw Hth (y, x))|].
    split; [exact Hb|]. rewrite <- Hb.
    change (str (x * tw) +:+ "_" +:+ str (y * th) +:+ ".png")
      with (cell_name tw th (y, x)).
    rewrite (cell_saved_iff tileset tw th (y, x) saved) by done.
    destruct (getbbox _); split; try done.
    + intros H. by destruct H.
    + intros _ H. by apply H.
  - intros e He. rewrite split_tileset_cells in E by done.
    injection E as <-.
    apply list_elem_of_bind in He as ([y x] & He & Hc).
    apply (elem_of_cell_saves tileset tw th true (y, x)) in He as ->.
    rewrite !Z.max_r in Hc by done.
    apply elem_of_grid in Hc; [|done..].
    exists x, y. split; [lia|]. split; [lia|]. split; [done|].
    apply (crop_cell tileset tw th Htw Hth (y, x)).
  - intros Hclear. rewrite split_tileset_cells in E by done.
    injection E as <-. apply bind_all_nil. intros c _.
    unfold cell_saves.
    assert (getbbox (cell_tile tileset tw th c) = None) as ->; [|done].
    apply getbbox_None. intros i j _ _. simpl.
    destruct (inside tileset _ _) eqn:Hin; [|done].
    unfold inside, in_range in Hin.
    apply andb_true_iff in Hin as [[? ?]%andb_true_iff [? ?]%andb_true_iff].
    apply Hclear; lia.
Qed.

Lemma splitter_skips_transparent_witness :
  ∃ saved,
    Splitter.split_tileset
      streak
      16 16 true = Ok saved ∧
    ∃ blank_tile inked_tile,
      (("0_0.png", blank_tile) ∉ saved) ∧
      ¬ (("16_0.png", inked_tile) ∉ saved).
Proof.
  destruct (splitter_skips_transparent
              streak
              16 16) as (saved & Hs & Hcell & _ & _);
    [lia|lia|simpl; lia|simpl; lia|].
  exists saved. split; [exact Hs|].
  destruct (Hcell 0 0) as (t0 & Hc0 & _ & H0);
    [split; [lia|reflexivity]..|].
  destruct (Hcell 1 0) as (t1 & Hc1 & _ & H1);
    [split; [lia|reflexivity]..|].
  exists t0, t1. split.
  - apply H0. intros i j Hi Hj. injection Hc0 as <-.
    cbn [getpixel alpha].
    destruct (inside _ _ _); [|reflexivity]. cbn [getpixel alpha].
    destruct (Z.eqb_spec (i + 0 * 16) 17); [lia|reflexivity].
  - intros Hn. pose proof (proj1 H1 Hn 1 0 ltac:(lia) ltac:(lia)) as Ha.
    injection Hc1 as <-. vm_compute in Ha. discriminate Ha.
Defined.

(** C10. With tile width and height at least 1 the file name of a grid
    cell determines the cell, and the names saved by one run are pairwise
    distinct: no [tile.save] of a run writes over an earlier one. *)
Theorem splitter_names_distinct
    (tileset : Image) (tw th : Z) (skip_empty : bool)
    (saved : list (string * Image)) :
  1 ≤ tw → 1 ≤ th →
  Splitter.split_tileset tileset tw th skip_empty = Ok saved →
  (∀ x y x' y',
     str (x * tw) +:+ "_" +:+ str (y * th) +:+ ".png"
     = str (x' * tw) +:+ "_" +:+ str (y' * th) +:+ ".png" →
     x = x' ∧ y = y') ∧
  NoDup saved.*1.
Proof.
  intros Htw Hth. rewrite split_tileset_cells by lia. intros [= <-].
  assert (Hinj : ∀ c1 c2, cell_name tw th c1 = cell_name tw th c2 → c1 = c2)
    by (intros c1 c2; apply cell_name_inj; lia).
  split.
  { intros x y x' y' E. by injection (Hinj (y, x) (y', x') E) as -> ->. }
  apply NoDup_fmap_2_strong.
  - intros e1 e2 (c1 & He1 & _)%list_elem_of_bind
      (c2 & He2 & _)%list_elem_of_bind E.
    apply elem_of_cell_saves in He1, He2. subst e1 e2. simpl in E.
    by rewrite (Hinj _ _ E).
  - apply NoDup_bind; [| |apply NoDup_grid].
    + intros c1 c2 e _ _ He1 He2.
      apply elem_of_cell_saves in He1, He2. subst e.
      apply Hinj. by injection He2.
    + intros c _. unfold cell_saves.
      destruct skip_empty; [destruct (getbbox _)|];
        (apply NoDup_singleton || apply NoDup_nil_2).
Qed.

Lemma splitter_names_distinct_witness :
  ∃ saved,
    Splitter.split_tileset gradient 16 16
      false = Ok saved ∧
    saved.*1 = ["0_0.png"; "16_0.png"; "0_16.png"; "16_16.png"] ∧
    NoDup saved.*1.
Proof.
  destruct (Splitter.split_tileset gradient
              16 16 false) as [saved|e] eqn:E;
    [|vm_compute in E; discriminate E].
  exists saved. split; [reflexivity|].
  split; [|apply (splitter_names_distinct
                    gradient 16 16 false
                    saved); [lia|lia|exact E]].
  vm_compute in E. injection E as <-. reflexivity.
Defined.

(** ** The chunk baker *)

(** A loop whose body cannot fail is a left fold. *)
Lemma for_each_pure {A S} (g : A → S → S) (l : list A) (s : S) :
  for_each l (λ x s, Ok (g x s)) s = Ok (foldl (λ s x, g x s) s l).
Proof. revert s. induction l as [|x l IH]; intros s; simpl; auto. Qed.

Section BakerFacts.
Import Baker.
Variable blend : rgba → rgba → Z → rgba.
Variables (ts cs : Z) (tile : Image).
Hypotheses (Hcs : 0 < cs) (Hts : 0 ≤ ts).



Lemma bake_chunk_ok cy cx saved :
  bake_chunk blend ts cs tile cy cx saved
  = Ok (saved ++
          [("grass-chunk-" +:+ str cx +:+ "-" +:+ str cy +:+ ".png",
            chunk_stage blend ts cs tile (Z.to_nat (cs * cs)))]).
Proof.
  unfold bake_chunk, new.
  destruct (Z.ltb_spec (cs * ts) 0); [nia|]. simpl.
  rewrite for_each_grid by lia. unfold paste_cell.
  rewrite (for_each_pure
             (λ c img, paste_masked blend img tile tile
                         (c.2 * ts) (c.1 * ts))).
  simpl. unfold chunk_stage. rewrite take_ge; [done|].
  pose proof (grid_length cs cs). lia.
Qed.

Lemma bake_ok map_cols map_rows :
  ∃ chunk_cols chunk_rows,
    ceil_truediv map_cols cs = Ok chunk_cols ∧
    ceil_truediv map_rows cs = Ok chunk_rows ∧
    bake blend ts cs tile map_cols map_rows
    = Ok ((λ c, ("grass-chunk-" +:+ str c.2 +:+ "-" +:+ str c.1 +:+ ".png",
                 chunk_stage blend ts cs tile (Z.to_nat (cs * cs))))
            <$> grid (Z.max 0 chunk_rows) (Z.max 0 chunk_cols)).
Proof.
  unfold bake, ceil_truediv. destruct (Z.eqb_spec cs 0); [lia|].
  eexists _, _. split; [done|]. split; [done|]. simpl.
  rewrite (range_max (- (- map_rows / cs))),
    (range_max (- (- map_cols / cs))).
  rewrite for_each_grid by lia.
  rewrite (for_each_collect _
             (λ c, [("grass-chunk-" +:+ str c.2 +:+ "-" +:+ str c.1
                       +:+ ".png",
                     chunk_stage blend ts cs tile (Z.to_nat (cs * cs)))])).
  - simpl. by rewrite bind_singleton_fmap.
  - intros c acc _. apply bake_chunk_ok.
Qed.
End BakerFacts.



(** * Further properties of the scripts *)

(** ** Numerals: [int] reads back what [str] writes *)

Lemma int_digits_uint_acc d acc :
  int_digits (Z.pos acc) true (NilEmpty.string_of_uint d)
  = Ok (Z.pos (Pos.of_uint_acc d acc)).
Proof.
  revert acc.
  induction d as [|d IH|d IH|d IH|d IH|d IH|d IH|d IH|d IH|d IH|d IH];
    intros acc; [done|..];
    cbn [NilEmpty.string_of_uint int_digits Pos.of_uint_acc].
  all: lazymatch goal with
       | |- context [digit_of ?c] =>
           let v := eval vm_compute in (digit_of c) in
           change (digit_of c) with v
       end.
  all: cbv iota beta; rewrite <- IH; f_equal; lia.
Qed.

Lemma int_digits_uint d b :
  d ≠ Decimal.Nil ∨ b = true →
  int_digits 0 b (NilEmpty.string_of_uint d) = Ok (Z.of_N (Pos.of_uint d)).
Proof.
  revert b.
  induction d as [|d IH|d IH|d IH|d IH|d IH|d IH|d IH|d IH|d IH|d IH];
    intros b Hb.
  { destruct Hb as [?| ->]; done. }
  { cbn [NilEmpty.string_of_uint int_digits Pos.of_uint].
    change (digit_of "0") with (Some 0). cbv iota beta.
    apply IH. by right. }
  all: cbn [NilEmpty.string_of_uint int_digits Pos.of_uint].
  all: lazymatch goal with
       | |- context [digit_of ?c] =>
           let v := eval vm_compute in (digit_of c) in
           change (digit_of c) with v
       end.
  all: cbv iota beta; cbn [Z.of_N].
  all: rewrite <- int_digits_uint_acc; f_equal.
Qed.

Lemma lstrip_numeral d :
  d ≠ Decimal.Nil →
  lstrip (NilEmpty.string_of_uint d) = NilEmpty.string_of_uint d.
Proof. destruct d; done. Qed.

(** [int(str(n)) == n] *)
Lemma int_str n : Py.int (str n) = Ok n.
Proof.
  unfold str. rewrite <- (DecimalZ.of_to n) at 2.
  assert (Hnn : match Z.to_int n with
                | Decimal.Pos d | Decimal.Neg d => d ≠ Decimal.Nil
                end).
  { destruct n; simpl; try apply DecimalPos.Unsigned.to_uint_nonnil. done. }
  destruct (Z.to_int n) as [d|d]; cbn [NilEmpty.string_of_int Z.of_int].
  - unfold Py.int, Z.of_uint. rewrite lstrip_numeral by done.
    rewrite <- (int_digits_uint d false) by auto.
    destruct d; done.
  - unfold Py.int, Z.of_uint. cbn [lstrip].
    change (is_space "-") with false. cbv iota.
    rewrite int_digits_uint by auto. done.
Qed.

(** ** File names: stems and fields of the names the scripts write *)

Lemma rfind_from_none i c s : has_char c s = false → rfind_from i c s = -1.
Proof.
  revert i. induction s as [|a s IH]; intros i; simpl; [done|].
  intros [Ha Hs]%orb_false_iff. by rewrite IH, Ha.
Qed.

Lemma rfind_from_last i c s t :
  0 ≤ i → has_char c t = false →
  rfind_from i c (s +:+ String c t) = i + Z.of_nat (String.length s).
Proof.
  revert i. induction s as [|a s IH]; intros i Hi Ht.
  - rewrite append_nil. cbn [rfind_from]. rewrite rfind_from_none by done.
    rewrite Ascii.eqb_refl. simpl. lia.
  - rewrite append_cons. cbn [rfind_from]. rewrite IH by (done || lia).
    destruct (Z.leb_spec 0 (i + 1 + Z.of_nat (String.length s))); [|lia].
    simpl String.length. lia.
Qed.

Lemma substring_app_l s t :
  String.substring 0 (String.length s) (s +:+ t) = s.
Proof. induction s as [|a s IH]; simpl; [by destruct t|]. by rewrite IH. Qed.

Lemma substring_all t : String.substring 0 (String.length t) t = t.
Proof. induction t as [|a t IH]; simpl; [done|]. by rewrite IH. Qed.

Lemma substring_app_r s t :
  String.substring (String.length s) (String.length t) (s +:+ t) = t.
Proof. induction s as [|a s IH]; simpl; [apply substring_all|done]. Qed.

(** The stem of [s + ".png"] is [s] when [s] is not empty and has neither
    a dot nor a slash. *)
Lemma splitext_png_stem s :
  s ≠ "" → has_char "." s = false → has_char "/" s = false →
  splitext (s +:+ ".png") = (s, ".png").
Proof.
  intros Hne Hdot Hsep. unfold splitext, rfind.
  change ".png" with (String "."%char "png").
  rewrite (rfind_from_last 0 "." s "png") by done.
  rewrite (rfind_from_none 0 "/") by (by rewrite has_char_app, Hsep).
  rewrite Z.add_0_l, Nat2Z.id.
  destruct s as [|a s]; [done|].
  assert (Hex : existsb
                  (λ k, char_differs (String a s +:+ String "." "png")
                          (-1 + 1 + k) ".")
                  (range (Z.of_nat (String.length (String a s)) - (-1 + 1)))
                = true).
  { apply existsb_exists. exists 0. split.
    - apply list_elem_of_In, elem_of_range. simpl String.length. lia.
    - unfold char_differs. simpl. simpl in Hdot.
      apply orb_false_iff in Hdot as [-> _]. done. }
  rewrite Hex. simpl andb. cbv iota.
  rewrite substring_app_l. f_equal.
  rewrite length_append.
  replace (String.length (String a s) + String.length (String "." "png")
           - String.length (String a s))%nat
    with (String.length (String "."%char "png")) by lia.
  apply substring_app_r.
Qed.

Lemma split_app_sep c u v :
  has_char c u = false → split c (u +:+ String c v) = u :: split c v.
Proof.
  induction u as [|a u IH]; intros Hu.
  - rewrite append_nil. cbn [split]. by rewrite Ascii.eqb_refl.
  - rewrite append_cons. cbn [split]. simpl in Hu.
    apply orb_false_iff in Hu as [-> Hu]. by rewrite IH.
Qed.

Lemma str_nonempty n : str n ≠ "".
Proof.
  intros E. pose proof (int_str n) as H. rewrite E in H. discriminate H.
Qed.

Lemma str_no_slash n : has_char "/" (str n) = false.
Proof.
  destruct (has_char "/" (str n)) eqn:E; [|done].
  by destruct (str_chars _ _ E).
Qed.

(** The renamer reads [<a>_<b>] as the pair [(a, b)]. *)
Lemma parse_xy_str a b :
  Renamer.parse_xy (str a +:+ "_" +:+ str b) = Ok (a, b).
Proof.
  unfold Renamer.parse_xy.
  change (str a +:+ "_" +:+ str b) with (str a +:+ String "_"%char (str b)).
  rewrite split_app_sep by apply str_no_underscore.
  rewrite split_no_sep by apply str_no_underscore.
  by rewrite !int_str.
Qed.

Lemma append_assoc s t u : s +:+ t +:+ u = (s +:+ t) +:+ u.
Proof.
  induction s as [|c s IH]; [done|]. by rewrite !append_cons, IH.
Qed.

Lemma coordinate_name_stem a b :
  splitext (str a +:+ "_" +:+ str b +:+ ".png")
  = (str a +:+ "_" +:+ str b, ".png").
Proof.
  change (str a +:+ "_" +:+ str b +:+ ".png")
    with (str a +:+ String "_"%char (str b +:+ ".png")).
  assert (E : str a +:+ String "_"%char (str b +:+ ".png")
              = (str a +:+ String "_"%char (str b)) +:+ ".png").
  { generalize (str a), (str b). clear. intros s t.
    induction s as [|c s IH]; [done|].
    by rewrite !append_cons, IH. }
  rewrite E. apply splitext_png_stem.
  - intros H. apply (f_equal String.length) in H.
    rewrite length_append in H. simpl in H. lia.
  - rewrite has_char_app, ?append_cons, ?append_nil. cbn [has_char].
    rewrite !str_no_dot. reflexivity.
  - rewrite has_char_app, ?append_cons, ?append_nil. cbn [has_char].
    rewrite !str_no_slash. reflexivity.
Qed.

Lemma numbered_name_stem n : splitext (str n +:+ ".png") = (str n, ".png").
Proof.
  apply splitext_png_stem;
    [apply str_nonempty|apply str_no_dot|apply str_no_slash].
Qed.

(** ** From one script to the next *)

(** X1. Every name the splitter saves is one the renamer accepts, and the
    renamer reads from it the pixel origin of the tile's grid cell. *)
Theorem splitter_names_parse_in_renamer
    (tileset : Image) (tw th : Z) (skip_empty : bool)
    (saved : list (string * Image)) (name : string) (tile : Image) :
  0 < tw → 0 < th →
  Splitter.split_tileset tileset tw th skip_empty = Ok saved →
  (name, tile) ∈ saved →
  ∃ x y,
    0 ≤ x < width tileset / tw ∧ 0 ≤ y < height tileset / th ∧
    Renamer.is_png name = true ∧
    Renamer.parse_xy (splitext name).1 = Ok (x * tw, y * th) ∧
    crop tileset (x * tw, y * th, x * tw + tw, y * th + th) = Ok tile.
Proof.
  intros Htw Hth. rewrite split_tileset_cells by done. intros [= <-].
  intros ([y x] & He & Hc)%list_elem_of_bind.
  apply elem_of_cell_saves in He. injection He as -> ->.
  apply elem_of_grid in Hc; [|lia..]. exists x, y.
  split; [lia|]. split; [lia|]. unfold cell_name. simpl. split_and!.
  - unfold Renamer.is_png.
    rewrite (append_assoc (str (x * tw))), (append_assoc (_ +:+ "_")).
    apply endswith_app.
  - rewrite coordinate_name_stem. apply parse_xy_str.
  - apply (crop_cell tileset tw th Htw Hth (y, x)).
Qed.

Lemma splitter_names_parse_in_renamer_witness :
  ∃ x y,
    0 ≤ x < width gradient / 16 ∧ 0 ≤ y < height gradient / 16 ∧
    Renamer.is_png "16_0.png" = true ∧
    Renamer.parse_xy (splitext "16_0.png").1 = Ok (x * 16, y * 16) ∧
    crop gradient (x * 16, y * 16, x * 16 + 16, y * 16 + 16)
    = Ok (cell_tile gradient 16 16 (0, 1)).
Proof.
  destruct (Splitter.split_tileset gradient 16 16 false) as [saved|e] eqn:E;
    [|vm_compute in E; discriminate E].
  apply (splitter_names_parse_in_renamer gradient 16 16 false saved
           "16_0.png" (cell_tile gradient 16 16 (0, 1)));
    [lia|lia|exact E|].
  rewrite split_tileset_cells in E by lia. injection E as <-.
  right. left.
Defined.

(** X2. When a sheet is split into 16 by 16 tiles without [skip_empty] and
    the renamer's column count is the number of tiles in a row of the
    sheet, the renamer numbers the tiles 1, 2, 3, ... in the order the
    splitter saved them: save number [k] gets id [k + 1]. *)
Theorem split_then_rename_numbers_in_order
    (tileset : Image) (W : Z) (saved : list (string * Image))
    (k : nat) (name : string) (tile : Image) :
  width tileset / 16 = W →
  Splitter.split_tileset tileset 16 16 false = Ok saved →
  saved !! k = Some (name, tile) →
  ∃ x y,
    Renamer.is_png name = true ∧
    Renamer.parse_xy (splitext name).1 = Ok (x, y) ∧
    Renamer.tile_id W x y = Z.of_nat k + 1.
Proof.
  intros HW. rewrite split_tileset_cells by lia. intros [= <-].
  unfold cell_saves. rewrite HW.
  rewrite (bind_singleton_fmap
             (λ c, (cell_name 16 16 c, cell_tile tileset 16 16 c))).
  rewrite list_lookup_fmap. unfold grid. rewrite list_lookup_fmap.
  destruct (range _ !! k) as [n|] eqn:Hn; [|done].
  assert (n = Z.of_nat k ∧ Z.of_nat k < Z.max 0 (height tileset / 16)
                                         * Z.max 0 W) as [-> Hk].
  { pose proof (lookup_lt_Some _ _ _ Hn) as Hlt.
    destruct (decide (0 ≤ Z.max 0 (height tileset / 16) * Z.max 0 W)).
    - pose proof (range_length _ ltac:(eassumption)).
      rewrite range_lookup in Hn by lia. split; [congruence|lia].
    - unfold range in Hlt. rewrite length_fmap, length_seq in Hlt. lia. }
  assert (0 < W) by nia. rewrite Z.max_r by lia.
  intros [= <- <-]. unfold cell_name. simpl.
  exists (Z.of_nat k mod W * 16), (Z.of_nat k / W * 16). split_and!.
  - unfold Renamer.is_png.
    rewrite (append_assoc (str _)), (append_assoc (_ +:+ "_")).
    apply endswith_app.
  - rewrite coordinate_name_stem. apply parse_xy_str.
  - unfold Renamer.tile_id. rewrite !Z.div_mul by lia.
    pose proof (Z.div_mod (Z.of_nat k) W). lia.
Qed.

Lemma split_then_rename_numbers_in_order_witness :
  ∃ x y,
    Renamer.is_png "16_16.png" = true ∧
    Renamer.parse_xy (splitext "16_16.png").1 = Ok (x, y) ∧
    Renamer.tile_id 2 x y = Z.of_nat 3 + 1.
Proof.
  destruct (Splitter.split_tileset gradient 16 16 false) as [saved|e] eqn:E;
    [|vm_compute in E; discriminate E].
  apply (split_then_rename_numbers_in_order gradient 2 saved 3
           "16_16.png" (cell_tile gradient 16 16 (1, 1)));
    [reflexivity|exact E|].
  rewrite split_tileset_cells in E by lia. injection E as <-.
  reflexivity.
Defined.

(** The packer's view of the name [<n>.png]. *)
Lemma renamed_names_key (n : Z) :
  Atlas.is_png (str n +:+ ".png") = true ∧
  Atlas.stem_key (str n +:+ ".png") = Ok (n, str n +:+ ".png").
Proof.
  split.
  - unfold Atlas.is_png. rewrite lower_app. apply endswith_app.
  - unfold Atlas.stem_key. rewrite numbered_name_stem. cbn [fst].
    by rewrite int_str.
Qed.

(** X3. A name the renamer writes for a tile id is one the atlas packer
    accepts, and the packer's sort key for it is that id. *)
Theorem renamed_names_sort_by_id (n : Z) :
  Atlas.is_png (str n +:+ ".png") = true ∧
  Atlas.stem_key (str n +:+ ".png") = Ok (n, str n +:+ ".png").
Proof.
  split.
  - unfold Atlas.is_png. rewrite lower_app. apply endswith_app.
  - unfold Atlas.stem_key. rewrite numbered_name_stem. cbn [fst].
    by rewrite int_str.
Qed.

(** ** More on the renamer *)

Section RenamerMore.
Import Renamer.
Variable W : Z.
Implicit Types (st : gmap string file * list line) (f k n : string).

Lemma new_name_of_Some f n :
  new_name_of W f = Some n →
  renamable f ∧ ∃ x y,
    parse_xy (splitext f).1 = Ok (x, y) ∧
    n = str (tile_id W x y) +:+ ".png".
Proof.
  unfold new_name_of, renamable.
  destruct (is_png f); [|done].
  destruct (parse_xy _) as [[x y]|]; [|done].
  intros [= <-]. eauto 10.
Qed.

Lemma new_name_of_None f : new_name_of W f = None ↔ ¬ renamable f.
Proof.
  unfold new_name_of, renamable. split.
  - destruct (is_png f); [|by intros _ [? _]].
    destruct (parse_xy _) as [[x y]|] eqn:E; [done|].
    by intros _ [_ (x & y & ?)].
  - intros Hn. destruct (is_png f); [|done].
    destruct (parse_xy _) as [[x y]|] eqn:E; [|done].
    destruct Hn. eauto.
Qed.

Lemma new_name_of_plain f n :
  new_name_of W f = Some n → has_char "_" n = false ∧ ¬ renamable n.
Proof.
  intros (_ & x & y & _ & ->)%new_name_of_Some.
  split; [apply new_name_no_underscore|apply new_name_not_renamable].
Qed.

(** The loop body in terms of [new_name_of]. *)
Lemma step_spec f st st' :
  step W f st = Ok st' →
  match new_name_of W f with
  | Some n =>
      ∃ content, st.1 !! f = Some content ∧
        st' = (<[n := content]> (delete f st.1), st.2 ++ [Renamed f n])
  | None =>
      st' = (st.1, st.2 ++ (if is_png f then [Skipping f] else []))
  end.
Proof.
  unfold step, new_name_of, rename. destruct (is_png f).
  - destruct (parse_xy _) as [[x y]|e] eqn:E.
    + destruct (st.1 !! f) as [c|]; [|done]. simpl. intros [= <-]. eauto.
    + rewrite (parse_xy_raises _ _ E). by intros [= <-].
  - intros [= <-]. rewrite app_nil_r. by destruct st.
Qed.

(** A name keeps its file through the loop when the loop neither renames
    it nor renames another file to it. *)
Lemma run_keeps l st st' k :
  for_each l (step W) st = Ok st' →
  k ∉ l ∨ ¬ renamable k →
  (∀ g, g ∈ l → new_name_of W g ≠ Some k) →
  st'.1 !! k = st.1 !! k.
Proof.
  revert st. induction l as [|f l IH]; intros st; simpl.
  { by intros [= <-]. }
  destruct (step W f st) as [st1|] eqn:E; [simpl|done].
  intros H Hk Hno. rewrite (IH _ H).
  - apply step_spec in E.
    destruct (new_name_of W f) as [n|] eqn:En.
    + destruct E as (c & Hc & ->). simpl.
      rewrite lookup_insert_ne, lookup_delete_ne; [done| |].
      * intros <-. destruct Hk as [Hk|Hk]; [apply Hk; by left|].
        apply Hk. by apply new_name_of_Some in En as [? _].
      * intros <-. by apply (Hno f); [left|].
    + by subst st1.
  - destruct Hk as [Hk|Hk]; [left|by right].
    intros ?. apply Hk. by right.
  - intros g Hg. apply Hno. by right.
Qed.
End RenamerMore.

(** What becomes of a renamed file and of its new name. *)
Lemma run_last_rename
    (W : Z) (before after : list string) (folder : gmap string file)
    (f n : string) (content : file)
    (final : gmap string file * list Renamer.line) :
  NoDup (before ++ f :: after) →
  folder !! f = Some content →
  new_name_of W f = Some n →
  (∀ g, g ∈ after → new_name_of W g ≠ Some n) →
  Renamer.run W (before ++ f :: after) folder = Ok final →
  final.1 !! n = Some content ∧ final.1 !! f = None.
Proof.
  intros Hnd Hc Hn Hafter Hrun.
  apply NoDup_app in Hnd as (_ & Hnb & [Hna _]%NoDup_cons).
  pose proof (new_name_of_Some W f n Hn) as [Hr _].
  pose proof (new_name_of_plain W f n Hn) as [Hplain Hnr].
  unfold Renamer.run in Hrun. rewrite for_each_app in Hrun.
  destruct (for_each before _ _) as [st|] eqn:Hb; [|done].
  simpl in Hrun.
  destruct (Renamer.step W f st) as [mid|] eqn:Hstep; [|done].
  simpl in Hrun.
  assert (Hst : st.1 !! f = Some content).
  { rewrite (run_frame W before (folder, []) st); [done|done|..].
    - by apply renamable_underscore.
    - intros Hfb. apply (Hnb _ Hfb). by left. }
  apply step_spec in Hstep. rewrite Hn in Hstep.
  destruct Hstep as (c & Hc' & ->). rewrite Hst in Hc'. injection Hc' as <-.
  split.
  - rewrite (run_keeps W after _ final n Hrun); [|by right|done].
    simpl. apply lookup_insert_eq.
  - rewrite (run_frame W after _ final f Hrun);
      [|by apply renamable_underscore|done].
    simpl. rewrite lookup_insert_ne, lookup_delete_eq; [done|].
    intros <-. apply renamable_underscore in Hr. congruence.
Qed.




(** Without colliding names every file is found under its final name. *)
Lemma run_keeps_every_file
    (W : Z) (listing : list string) (folder : gmap string file)
    (final : gmap string file * list Renamer.line)
    (f : string) (content : file) :
  NoDup listing →
  (∀ g, g ∈ listing ↔ is_Some (folder !! g)) →
  (∀ g h, g ∈ listing → h ∈ listing →
     final_name W g = final_name W h → g = h) →
  Renamer.run W listing folder = Ok final →
  folder !! f = Some content →
  final.1 !! final_name W f = Some content.
Proof.
  intros Hnd Hdom Hinj Hrun Hc.
  assert (Hf : f ∈ listing) by (apply Hdom; eauto).
  unfold final_name at 1.
  destruct (new_name_of W f) as [n|] eqn:Hn; simpl.
  - destruct (list_elem_of_split _ _ Hf) as (before & after & ->).
    eapply (run_last_rename W before after folder f n);
      eauto.
    intros g Hg Hgn.
    assert (g = f) as ->.
    { apply Hinj;
        [apply elem_of_app; right; by right
        |apply elem_of_app; right; by left|].
      unfold final_name. by rewrite Hgn, Hn. }
    apply NoDup_app in Hnd as (_ & _ & [Hna _]%NoDup_cons). done.
  - rewrite (run_keeps W listing (folder, []) final f Hrun); [done| |].
    + right. by apply (proj1 (new_name_of_None W f)).
    + intros g Hg Hgn. assert (g = f) as ->.
      { apply Hinj; [done..|]. unfold final_name. by rewrite Hgn, Hn. }
      congruence.
Qed.



Lemma run_origin W l (st st' : gmap string file * list Renamer.line) k c :
  for_each l (Renamer.step W) st = Ok st' →
  st'.1 !! k = Some c →
  ∃ f, st.1 !! f = Some c ∧ (k = f ∨ (f ∈ l ∧ new_name_of W f = Some k)).
Proof.
  revert st. induction l as [|f l IH]; intros st; simpl.
  { intros [= <-] ?. eauto. }
  destruct (Renamer.step W f st) as [st1|] eqn:E; [simpl|done].
  intros H Hk. destruct (IH _ H Hk) as (f1 & Hf1 & Hor).
  apply step_spec in E. destruct (new_name_of W f) as [n|] eqn:En.
  - destruct E as (c0 & Hc0 & ->). simpl in Hf1.
    destruct (decide (n = f1)) as [<-|Hne].
    + rewrite lookup_insert_eq in Hf1. injection Hf1 as ->.
      exists f. split; [done|]. right. split; [by left|].
      destruct Hor as [->|[_ Hbad]]; [done|].
      apply new_name_of_Some in Hbad as [Hbad _].
      by apply (new_name_of_plain W f n) in En as [_ ?].
    + rewrite lookup_insert_ne in Hf1 by done.
      destruct (decide (f = f1)) as [<-|Hne'].
      { by rewrite lookup_delete_eq in Hf1. }
      rewrite lookup_delete_ne in Hf1 by done.
      exists f1. split; [done|].
      destruct Hor as [->|[? ?]]; [by left|right]. split; [by right|done].
  - subst st1. exists f1. split; [done|].
    destruct Hor as [->|[? ?]]; [by left|right]. split; [by right|done].
Qed.



Lemma run_reports W l (st st' : gmap string file * list Renamer.line) :
  for_each l (Renamer.step W) st = Ok st' →
  line_file <$> st'.2
  = (line_file <$> st.2) ++ List.filter Renamer.is_png l.
Proof.
  revert st. induction l as [|f l IH]; intros st; simpl.
  { intros [= <-]. by rewrite app_nil_r. }
  destruct (Renamer.step W f st) as [st1|] eqn:E; [simpl|done].
  intros H. rewrite (IH _ H). apply step_spec in E.
  destruct (new_name_of W f) as [n|] eqn:En.
  - destruct E as (c & _ & ->). simpl.
    apply new_name_of_Some in En as [[-> _] _].
    by rewrite fmap_app, <- app_assoc.
  - subst st1. simpl. destruct (Renamer.is_png f).
    + by rewrite fmap_app, <- app_assoc.
    + by rewrite app_nil_r.
Qed.

(** X7. The renamer prints exactly one line for every listed name that
    ends in [.png], in listing order, and none for any other name. *)
Theorem renamer_reports_every_png
    (W : Z) (listing : list string) (folder : gmap string file)
    (final : gmap string file * list Renamer.line) :
  Renamer.run W listing folder = Ok final →
  line_file <$> final.2 = List.filter Renamer.is_png listing.
Proof. intros H. by rewrite (run_reports W listing (folder, []) final H). Qed.

Lemma renamer_reports_every_png_witness :
  line_file <$> [Renamer.Renamed "0_0.png" "1.png"; Renamer.Skipping "x.png"]
  = List.filter Renamer.is_png ["0_0.png"; "notes.txt"; "x.png"].
Proof.
  apply (renamer_reports_every_png 17 ["0_0.png"; "notes.txt"; "x.png"]
           (<["0_0.png" := Blob 1]>
              (<["notes.txt" := Blob 0]> {["x.png" := Blob 2]}))
           (<["1.png" := Blob 1]>
              (<["notes.txt" := Blob 0]> {["x.png" := Blob 2]}),
            [Renamer.Renamed "0_0.png" "1.png"; Renamer.Skipping "x.png"])).
  reflexivity.
Defined.

(** X8. Tile ids are at least 1 for coordinates that are not negative, and
    two tiles whose columns [x // 16] lie within the [W] columns of the
    sheet get the same id only when they are in the same grid cell. *)
Theorem tile_id_separates_cells (W x y x' y' : Z) :
  0 ≤ x / 16 < W → 0 ≤ x' / 16 < W →
  (0 ≤ y → 1 ≤ Renamer.tile_id W x y) ∧
  (Renamer.tile_id W x y = Renamer.tile_id W x' y' →
   x / 16 = x' / 16 ∧ y / 16 = y' / 16).
Proof.
  unfold Renamer.tile_id. intros Hx Hx'.
  pose proof (Z.div_pos y 16) as Hy.
  remember (x / 16) as cx eqn:Ecx. remember (x' / 16) as cx' eqn:Ecx'.
  remember (y / 16) as cy eqn:Ecy. remember (y' / 16) as cy' eqn:Ecy'.
  clear Ecx Ecx' Ecy Ecy'. split.
  - intros H0. specialize (Hy H0 ltac:(lia)). nia.
  - intros E. assert (cy = cy') by nia. subst cy'. lia.
Qed.

Lemma tile_id_separates_cells_witness :
  (0 ≤ 32 → 1 ≤ Renamer.tile_id 17 16 32) ∧
  (Renamer.tile_id 17 16 32 = Renamer.tile_id 17 48 32 →
   16 / 16 = 48 / 16 ∧ 32 / 16 = 32 / 16).
Proof.
  apply (tile_id_separates_cells 17 16 32 48 32);
    (split; [by vm_compute|reflexivity]).
Defined.

(** ** More on the splitter *)

Lemma for_each_idle {A S} (l : list A) (body : A → S → result S) (s : S) :
  (∀ x s, body x s = Ok s) → for_each l body s = Ok s.
Proof.
  intros H. induction l as [|x l IH]; simpl; [done|]. by rewrite H.
Qed.

(** X9. A tile width or height of 0 stops the splitter with a
    [ZeroDivisionError] before anything is saved; a negative tile width
    (with a height that is not 0) raises nothing and saves nothing. *)
Theorem splitter_degenerate_sizes
    (tileset : Image) (tw th : Z) (skip_empty : bool) :
  0 ≤ width tileset →
  (tw = 0 ∨ th = 0 →
   Splitter.split_tileset tileset tw th skip_empty
   = Raise ZeroDivisionError) ∧
  (tw < 0 → th ≠ 0 →
   Splitter.split_tileset tileset tw th skip_empty = Ok []).
Proof.
  intros HW. unfold Splitter.split_tileset, floordiv. split.
  - intros [-> | ->]; [done|]. by destruct (tw =? 0).
  - intros Htw Hth.
    destruct (Z.eqb_spec tw 0); [lia|]. destruct (Z.eqb_spec th 0); [lia|].
    simpl.
    assert (width tileset / tw ≤ 0) as Hle.
    { pose proof (Z.div_mod (width tileset) tw ltac:(lia)) as Hdm.
      pose proof (Z.mod_neg_bound (width tileset) tw Htw) as Hmb.
      remember (width tileset / tw) as q. remember (width tileset mod tw) as r.
      nia. }
    assert (range (width tileset / tw) = []) as ->
      by (unfold range; by replace (Z.to_nat _) with 0%nat by lia).
    by apply for_each_idle.
Qed.

Lemma splitter_degenerate_sizes_witness :
  Splitter.split_tileset gradient 0 16 true = Raise ZeroDivisionError ∧
  Splitter.split_tileset gradient (-16) 16 false = Ok [].
Proof.
  split.
  - apply (splitter_degenerate_sizes gradient 0 16 true); [simpl; lia|].
    by left.
  - apply (splitter_degenerate_sizes gradient (-16) 16 false);
      [simpl; lia|lia|lia].
Defined.

Lemma sublist_bind {A B} (f g : A → list B) (l : list A) :
  (∀ x, f x `sublist_of` g x) → l ≫= f `sublist_of` l ≫= g.
Proof.
  intros H. induction l as [|x l IH]; [done|].
  rewrite !bind_cons. by apply sublist_app.
Qed.

(** X10. [skip_empty] only leaves tiles out: the tiles saved with it are
    tiles saved without it, with the same names and in the same order. *)
Theorem splitter_skip_only_drops
    (tileset : Image) (tw th : Z) (kept all : list (string * Image)) :
  0 < tw → 0 < th →
  Splitter.split_tileset tileset tw th true = Ok kept →
  Splitter.split_tileset tileset tw th false = Ok all →
  kept `sublist_of` all ∧ (length kept ≤ length all)%nat.
Proof.
  intros Htw Hth. rewrite !split_tileset_cells by done.
  intros [= <-] [= <-].
  assert (Hs : ∀ l,
             l ≫= cell_saves tileset tw th true
             `sublist_of` l ≫= cell_saves tileset tw th false).
  { intros l. apply sublist_bind. intros c. unfold cell_saves.
    destruct (getbbox _); [done|]. apply sublist_nil_l. }
  split; [apply Hs|]. apply sublist_length, Hs.
Qed.

Lemma splitter_skip_only_drops_witness :
  ∃ kept all,
    Splitter.split_tileset streak 16 16 true = Ok kept ∧
    Splitter.split_tileset streak 16 16 false = Ok all ∧
    kept `sublist_of` all ∧ (length kept ≤ length all)%nat.
Proof.
  destruct (Splitter.split_tileset streak 16 16 true) as [kept|e] eqn:E1;
    [|vm_compute in E1; discriminate E1].
  destruct (Splitter.split_tileset streak 16 16 false) as [all|e] eqn:E2;
    [|vm_compute in E2; discriminate E2].
  exists kept, all. split; [reflexivity|]. split; [reflexivity|].
  apply (splitter_skip_only_drops streak 16 16 kept all);
    [lia|lia|exact E1|exact E2].
Defined.

(** X11. Without [skip_empty] the saved tiles together hold every pixel
    of the part of the sheet that the grid covers: the pixel at [(px, py)]
    is pixel [(px mod tw, py mod th)] of the tile of cell
    [(px // tw, py // th)], which is save number
    [(py // th) * floor(W/tw) + px // tw]. *)
Theorem splitter_tiles_cover_grid
    (tileset : Image) (tw th px py : Z) (saved : list (string * Image)) :
  0 < tw → 0 < th →
  0 ≤ px < width tileset / tw * tw → 0 ≤ py < height tileset / th * th →
  Splitter.split_tileset tileset tw th false = Ok saved →
  ∃ tile,
    saved !! Z.to_nat (py / th * (width tileset / tw) + px / tw)
    = Some (str (px / tw * tw) +:+ "_" +:+ str (py / th * th) +:+ ".png",
            tile) ∧
    getpixel tile (px mod tw) (py mod th) = getpixel tileset px py.
Proof.
  intros Htw Hth Hpx Hpy. rewrite split_tileset_cells by done.
  intros [= <-]. unfold cell_saves.
  rewrite (bind_singleton_fmap
             (λ c, (cell_name tw th c, cell_tile tileset tw th c))).
  pose proof (Z.div_mod px tw ltac:(lia)) as Hdx.
  pose proof (Z.div_mod py th ltac:(lia)) as Hdy.
  pose proof (Z.mod_pos_bound px tw Htw) as Hmx.
  pose proof (Z.mod_pos_bound py th Hth) as Hmy.
  remember (width tileset / tw) as w eqn:Ew.
  remember (height tileset / th) as h eqn:Eh.
  remember (px / tw) as cx eqn:Ecx. remember (py / th) as cy eqn:Ecy.
  remember (px mod tw) as rx eqn:Erx. remember (py mod th) as ry eqn:Ery.
  assert (0 ≤ cx < w) by nia. assert (0 ≤ cy < h) by nia.
  rewrite !Z.max_r by lia.
  exists (cell_tile tileset tw th (cy, cx)). split.
  - rewrite list_lookup_fmap, grid_lookup by (rewrite Z2Nat.id; nia).
    rewrite Z2Nat.id by nia.
    replace (cy * w + cx) with (cx + cy * w) by lia.
    rewrite Z.mod_add, Z.div_add by lia.
    rewrite Z.mod_small, Z.div_small by lia. rewrite Z.add_0_l. done.
  - rewrite (cell_tile_pixel tileset tw th Htw Hth (cy, cx));
      simpl; rewrite <- ?Ew, <- ?Eh; try lia.
    f_equal; lia.
Qed.

Lemma splitter_tiles_cover_grid_witness :
  ∃ saved tile,
    Splitter.split_tileset gradient 16 16 false = Ok saved ∧
    saved !! Z.to_nat (20 / 16 * (width gradient / 16) + 18 / 16)
    = Some (str (18 / 16 * 16) +:+ "_" +:+ str (20 / 16 * 16) +:+ ".png",
            tile) ∧
    getpixel tile (18 mod 16) (20 mod 16) = getpixel gradient 18 20.
Proof.
  destruct (Splitter.split_tileset gradient 16 16 false) as [saved|e] eqn:E;
    [|vm_compute in E; discriminate E].
  destruct (splitter_tiles_cover_grid gradient 16 16 18 20 saved)
    as (tile & Hs & Hp);
    [lia|lia|split; [by vm_compute|reflexivity]
    |split; [by vm_compute|reflexivity]|exact E|].
  exists saved, tile. split; [reflexivity|]. split; [exact Hs|exact Hp].
Defined.

Lemma save_all_other out saved k :
  k ∉ saved.*1 → save_all out saved !! k = out !! k.
Proof.
  revert out. induction saved as [|e saved IH]; intros out; [done|].
  rewrite fmap_cons. intros [Hk Hn]%not_elem_of_cons.
  unfold save_all in *. simpl. rewrite IH by done.
  by rewrite lookup_insert_ne.
Qed.

Lemma save_all_cons out e saved :
  save_all out (e :: saved) = save_all (<[e.1 := Png e.2]> out) saved.
Proof. done. Qed.

Lemma save_all_lookup out saved name tile :
  NoDup saved.*1 → (name, tile) ∈ saved →
  save_all out saved !! name = Some (Png tile).
Proof.
  revert out. induction saved as [|e saved IH]; intros out.
  { by intros _ ?%elem_of_nil. }
  rewrite fmap_cons, save_all_cons.
  intros [Hn Hnd]%NoDup_cons [E|Hin]%elem_of_cons.
  - subst e. rewrite save_all_other by done. apply lookup_insert_eq.
  - by apply IH.
Qed.

(** X12. With tile sizes of at least 1, once the splitter's saves are
    carried out every saved tile can be read back from the output folder
    under its name, and the files of the folder with other names are as
    they were. *)
Theorem splitter_output_folder
    (tileset : Image) (tw th : Z) (skip_empty : bool)
    (saved : list (string * Image)) (out : gmap string file) :
  1 ≤ tw → 1 ≤ th →
  Splitter.split_tileset tileset tw th skip_empty = Ok saved →
  (∀ name tile, (name, tile) ∈ saved →
     save_all out saved !! name = Some (Png tile)) ∧
  (∀ k, k ∉ saved.*1 → save_all out saved !! k = out !! k).
Proof.
  intros Htw Hth Hs. split; [|intros k; apply save_all_other].
  intros name tile. apply save_all_lookup.
  rewrite split_tileset_cells in Hs by lia. injection Hs as <-.
  assert (Hinj : ∀ c1 c2, cell_name tw th c1 = cell_name tw th c2 → c1 = c2)
    by (intros c1 c2; apply cell_name_inj; lia).
  apply NoDup_fmap_2_strong.
  - intros e1 e2 (c1 & He1 & _)%list_elem_of_bind
      (c2 & He2 & _)%list_elem_of_bind E.
    apply elem_of_cell_saves in He1, He2. subst e1 e2. simpl in E.
    by rewrite (Hinj _ _ E).
  - apply NoDup_bind; [| |apply NoDup_grid].
    + intros c1 c2 e _ _ He1 He2.
      apply elem_of_cell_saves in He1, He2. subst e.
      apply Hinj. by injection He2.
    + intros c _. unfold cell_saves.
      destruct skip_empty; [destruct (getbbox _)|];
        (apply NoDup_singleton || apply NoDup_nil_2).
Qed.

Lemma splitter_output_folder_witness :
  ∃ saved,
    Splitter.split_tileset gradient 16 16 false = Ok saved ∧
    (∀ name tile, (name, tile) ∈ saved →
       save_all {["old.txt" := Blob 0]} saved !! name = Some (Png tile)) ∧
    (∀ k, k ∉ saved.*1 →
       save_all {["old.txt" := Blob 0]} saved !! k
       = ({["old.txt" := Blob 0]} : gmap string file) !! k).
Proof.
  destruct (Splitter.split_tileset gradient 16 16 false) as [saved|e] eqn:E;
    [|vm_compute in E; discriminate E].
  exists saved. split; [reflexivity|].
  apply (splitter_output_folder gradient 16 16 false saved
           {["old.txt" := Blob 0]}); [lia|lia|exact E].
Defined.

(** ** More on the atlas packer *)

Lemma insert_by_key_perm x l : Atlas.insert_by_key x l ≡ₚ x :: l.
Proof.
  induction l as [|y l IH]; simpl; [done|].
  destruct (x.1 <=? y.1); [done|]. rewrite IH. apply perm_swap.
Qed.

Lemma sort_by_key_permutation l : Atlas.sort_by_key l ≡ₚ l.
Proof.
  unfold Atlas.sort_by_key. induction l as [|x l IH]; simpl; [done|].
  by rewrite insert_by_key_perm, IH.
Qed.

Lemma insert_by_key_sorted x l :
  StronglySorted (λ a b : Z * string, a.1 ≤ b.1) l →
  StronglySorted (λ a b : Z * string, a.1 ≤ b.1) (Atlas.insert_by_key x l).
Proof.
  induction 1 as [|y l Hs IH Hy]; simpl.
  { repeat constructor. }
  destruct (Z.leb_spec x.1 y.1).
  - constructor; [by constructor|]. constructor; [done|].
    eapply Forall_impl; [exact Hy|]. simpl. lia.
  - constructor; [done|].
    rewrite insert_by_key_perm. constructor; [lia|done].
Qed.

Lemma sort_by_key_sorted l :
  StronglySorted (λ a b : Z * string, a.1 ≤ b.1) (Atlas.sort_by_key l).
Proof.
  unfold Atlas.sort_by_key. induction l as [|x l IH]; simpl.
  - constructor.
  - by apply insert_by_key_sorted.
Qed.

Lemma StronglySorted_lookup {A} (R : relation A) l (i j : nat) a b :
  StronglySorted R l → (i < j)%nat →
  l !! i = Some a → l !! j = Some b → R a b.
Proof.
  intros Hs. revert i j. induction Hs as [|x l _ IH Hx]; intros i j Hij.
  { done. }
  destruct i as [|i], j as [|j]; try lia; simpl.
  - intros [= <-] Hb. eapply Forall_forall in Hx; [done|].
    by eapply list_elem_of_lookup_2.
  - apply IH. lia.
Qed.

Lemma map_m_stem_key l keyed :
  map_m Atlas.stem_key l = Ok keyed →
  keyed.*2 = l ∧ ∀ p, p ∈ keyed → key_of p.2 = Some p.1.
Proof.
  revert keyed. induction l as [|f l IH]; intros keyed; simpl.
  { intros [= <-]. split; [done|]. by intros p ?%elem_of_nil. }
  destruct (Atlas.stem_key f) as [[k g]|] eqn:E; [simpl|done].
  destruct (map_m Atlas.stem_key l) as [ks|]; [simpl|done].
  intros [= <-]. destruct (IH ks eq_refl) as [IH1 IH2].
  apply stem_key_ok in E as [-> E]. split.
  - rewrite fmap_cons. cbn [snd]. by rewrite IH1.
  - intros p [->|Hp]%elem_of_cons; [|by apply IH2].
    unfold key_of. simpl. by rewrite E.
Qed.

(** X13. The packing order is the list of the PNG names of the listing
    (every one of them, each as often as it is listed), arranged so that
    the integer values of the stems never go down. *)
Theorem packing_order_sorted (listing files : list string) :
  Atlas.sorted_files listing = Ok files →
  files ≡ₚ List.filter Atlas.is_png listing ∧
  ∀ (i j : nat) f g, (i < j)%nat →
    files !! i = Some f → files !! j = Some g →
    ∃ a b, key_of f = Some a ∧ key_of g = Some b ∧ a ≤ b.
Proof.
  unfold Atlas.sorted_files.
  destruct (map_m _ _) as [keyed|] eqn:E; [simpl|done]. intros [= <-].
  apply map_m_stem_key in E as [E1 E2]. split.
  - by rewrite sort_by_key_permutation, E1.
  - intros i j f g Hij. rewrite !list_lookup_fmap.
    destruct (_ !! i) as [p|] eqn:Hp; [simpl|done].
    destruct (_ !! j) as [q|] eqn:Hq; [simpl|done].
    intros [= <-] [= <-]. exists p.1, q.1. split_and!.
    + apply E2. rewrite <- sort_by_key_permutation.
      by eapply list_elem_of_lookup_2.
    + apply E2. rewrite <- sort_by_key_permutation.
      by eapply list_elem_of_lookup_2.
    + by apply (StronglySorted_lookup _ _ i j p q (sort_by_key_sorted keyed)).
Qed.

Lemma packing_order_sorted_witness :
  ["1.png"; "2.PNG"; "10.png"]
  ≡ₚ List.filter Atlas.is_png ["10.png"; "a.txt"; "2.PNG"; "1.png"] ∧
  ∀ (i j : nat) f g, (i < j)%nat →
    ["1.png"; "2.PNG"; "10.png"] !! i = Some f →
    ["1.png"; "2.PNG"; "10.png"] !! j = Some g →
    ∃ a b, key_of f = Some a ∧ key_of g = Some b ∧ a ≤ b.
Proof.
  apply (packing_order_sorted ["10.png"; "a.txt"; "2.PNG"; "1.png"]
           ["1.png"; "2.PNG"; "10.png"]).
  reflexivity.
Defined.

Lemma insert_by_key_split x s :
  ∃ s1 s2, s = s1 ++ s2 ∧ Atlas.insert_by_key x s = s1 ++ x :: s2 ∧
           ∀ y, y ∈ s1 → y.1 < x.1.
Proof.
  induction s as [|y s (s1 & s2 & -> & E & Hlt)]; simpl.
  { exists [], []. split_and!; try done. by intros y ?%elem_of_nil. }
  destruct (Z.leb_spec x.1 y.1).
  - exists [], (y :: s1 ++ s2). split_and!; try done.
    by intros z ?%elem_of_nil.
  - exists (y :: s1), s2. rewrite E. split_and!; try done.
    intros z [->|?]%elem_of_cons; auto.
Qed.

Lemma sort_by_key_stable p q l :
  p.1 = q.1 → [p; q] `sublist_of` l →
  [p; q] `sublist_of` Atlas.sort_by_key l.
Proof.
  intros Hk. unfold Atlas.sort_by_key.
  induction l as [|x l IH]; intros Hs; [by inversion Hs|].
  simpl. destruct (insert_by_key_split x (foldr Atlas.insert_by_key [] l))
    as (s1 & s2 & Es & -> & Hlt).
  inversion Hs as [|? ? ? Hq|? ? ? Hpq]; subst.
  - apply sublist_inserts_l, sublist_skip, singleton_sublist_l.
    assert (Hin : q ∈ s1 ++ s2).
    { rewrite <- Es. change (foldr Atlas.insert_by_key [] l)
        with (Atlas.sort_by_key l).
      rewrite sort_by_key_permutation.
      eapply elem_of_sublist; [|exact Hq]. by left. }
    apply elem_of_app in Hin as [Hin|Hin]; [|done].
    apply Hlt in Hin. lia.
  - etrans; [apply (IH Hpq)|]. rewrite Es.
    apply sublist_app; [done|]. by apply sublist_cons.
Qed.

Lemma map_m_stem_key_fmap l keyed :
  map_m Atlas.stem_key l = Ok keyed →
  keyed = (λ f, (default 0 (key_of f), f)) <$> l.
Proof.
  revert keyed. induction l as [|f l IH]; intros keyed; cbn [map_m].
  { by intros [= <-]. }
  destruct (Atlas.stem_key f) as [[k g]|] eqn:E; [cbn [Py.bind]|done].
  destruct (map_m Atlas.stem_key l) as [ks|]; [cbn [Py.bind]|done].
  intros [= <-]. rewrite (IH ks eq_refl), fmap_cons.
  apply stem_key_ok in E as [-> E]. f_equal. cbv beta.
  unfold key_of. by rewrite E.
Qed.

Lemma sublist_list_filter {A} (P : A → bool) l1 l2 :
  l1 `sublist_of` l2 → Forall (λ x, P x = true) l1 →
  l1 `sublist_of` List.filter P l2.
Proof.
  induction 1 as [|x l1 l2 _ IH|x l1 l2 _ IH]; intros Hall; simpl.
  - done.
  - apply Forall_cons in Hall as [-> Hall]. by apply sublist_skip, IH.
  - destruct (P x); [apply sublist_cons|]; by apply IH.
Qed.

(** X14. The sort is stable: of two PNG names whose stems have the same
    integer value, the one listed first is packed first. *)
Theorem packing_order_keeps_ties
    (listing files : list string) (f g : string) (k : Z) :
  Atlas.sorted_files listing = Ok files →
  [f; g] `sublist_of` listing →
  Atlas.is_png f = true → Atlas.is_png g = true →
  key_of f = Some k → key_of g = Some k →
  [f; g] `sublist_of` files.
Proof.
  unfold Atlas.sorted_files. intros Hs Hfg Hf Hg Hkf Hkg.
  destruct (map_m _ _) as [keyed|] eqn:E; [simpl in Hs|done].
  injection Hs as <-. apply map_m_stem_key_fmap in E. subst keyed.
  change [f; g] with ((k, f) :: [(k, g)]).*2.
  apply fmap_sublist, sort_by_key_stable; [done|].
  assert (E : [(k, f); (k, g)]
              = (λ f, (default 0 (key_of f), f)) <$> [f; g])
    by (simpl; by rewrite Hkf, Hkg).
  rewrite E. apply fmap_sublist, sublist_list_filter; [done|].
  by repeat constructor.
Qed.

Lemma packing_order_keeps_ties_witness :
  [ "1.png"; "01.png" ] `sublist_of` ["1.png"; "01.png"; "7.png"].
Proof.
  apply (packing_order_keeps_ties ["7.png"; "1.png"; "01.png"]
           ["1.png"; "01.png"; "7.png"] "1.png" "01.png" 1);
    try reflexivity.
  apply sublist_cons. reflexivity.
Defined.

(** What a successful packing went through. *)
Lemma pack_ok_inv cols size listing folder atlas mapping :
  Atlas.pack cols size listing folder = Ok (atlas, mapping) →
  ∃ files rows,
    Atlas.sorted_files listing = Ok files ∧
    ceil_truediv (Z.of_nat (length files)) cols = Ok rows ∧
    0 ≤ cols * size ∧ 0 ≤ rows * size ∧
    for_each (Atlas.enumerate_from 0 files) (Atlas.place cols size folder)
      (mkImage (cols * size) (rows * size) (λ _ _, transparent), ∅)
    = Ok (atlas, mapping).
Proof.
  unfold Atlas.pack.
  destruct (Atlas.sorted_files listing) as [files|]; [simpl|done].
  destruct (ceil_truediv (Z.of_nat (length files)) cols) as [rows|] eqn:Er;
    [simpl|done].
  unfold new. destruct (Z.ltb_spec (cols * size) 0) as [|Hc]; [done|].
  destruct (Z.ltb_spec (rows * size) 0) as [|Hr]; [done|]. simpl.
  intros Hloop. exists files, rows. done.
Qed.

Section AtlasMore.
Import Atlas.
Variables (cols size : Z) (folder : gmap string file).
Implicit Types (st : Image * gmap string Rect) (files : list string).

Lemma pack_loop_dims i files st st' :
  for_each (enumerate_from i files) (place cols size folder) st = Ok st' →
  width st'.1 = width st.1 ∧ height st'.1 = height st.1.
Proof.
  revert i st. induction files as [|f files IH]; intros i st; simpl.
  { by intros [= <-]. }
  unfold place at 1. simpl. destruct (open_rgba folder f); [simpl|done].
  intros H. by destruct (IH _ _ H).
Qed.

(** Every entry of the mapping was there before the loop or was written
    by one of its iterations. *)
Lemma pack_loop_mapping i files st st' key r :
  for_each (enumerate_from i files) (place cols size folder) st = Ok st' →
  st'.2 !! key = Some r →
  st.2 !! key = Some r ∨
  ∃ (j : nat) f,
    files !! j = Some f ∧ key = "tile-" +:+ (splitext f).1 ∧
    r = mkRect ((i + Z.of_nat j) mod cols * size)
          ((i + Z.of_nat j) / cols * size) size size.
Proof.
  revert i st. induction files as [|f files IH]; intros i st; simpl.
  { intros [= <-]. by left. }
  unfold place at 1. simpl. destruct (open_rgba folder f); [simpl|done].
  intros H Hk. destruct (IH _ _ H Hk) as [Hin|(j & g & Hj & -> & ->)].
  - simpl in Hin. apply lookup_insert_Some in Hin as [[<- <-]|[_ Hin]].
    + right. exists 0%nat, f. by rewrite Z.add_0_r.
    + by left.
  - right. exists (S j), g. split; [done|]. split; [done|].
    by replace (i + Z.of_nat (S j)) with (i + 1 + Z.of_nat j) by lia.
Qed.

(** The loop adds one entry for each file when their keys are new and
    pairwise distinct. *)
Lemma pack_loop_size i files st st' :
  for_each (enumerate_from i files) (place cols size folder) st = Ok st' →
  NoDup ((λ f, (splitext f).1) <$> files) →
  (∀ f, f ∈ files → st.2 !! ("tile-" +:+ (splitext f).1) = None) →
  base.size st'.2 = (base.size st.2 + length files)%nat.
Proof.
  revert i st. induction files as [|f files IH]; intros i st; simpl.
  { intros [= <-]. lia. }
  unfold place at 1. simpl. destruct (open_rgba folder f); [simpl|done].
  intros H [Hf Hnd]%NoDup_cons Hnew.
  rewrite (IH _ _ H Hnd).
  - simpl. rewrite map_size_insert_None by (apply Hnew; by left). lia.
  - intros g Hg. simpl. rewrite lookup_insert_ne.
    + apply Hnew. by right.
    + intros E%tile_key_inj. apply Hf. rewrite E.
      apply list_elem_of_fmap. by exists g.
Qed.

(** The loop fails with [OSError] when one of the files is not an image. *)
Lemma pack_loop_unreadable i files st g :
  g ∈ files → (∀ im, folder !! g ≠ Some (Png im)) →
  for_each (enumerate_from i files) (place cols size folder) st
  = Raise OSError.
Proof.
  intros Hg Hbad. revert i st.
  induction files as [|f files IH]; intros i st; simpl.
  { by apply elem_of_nil in Hg. }
  unfold place at 1, open_rgba. simpl.
  destruct (folder !! f) as [[img| |]|] eqn:Hf; try done. simpl.
  apply elem_of_cons in Hg as [->|Hg]; [by destruct (Hbad img)|].
  by apply IH.
Qed.
End AtlasMore.

(** The size of the canvas a successful packing returns. *)
Lemma pack_ok_dims cols size listing folder atlas mapping :
  Atlas.pack cols size listing folder = Ok (atlas, mapping) →
  ∃ files rows,
    Atlas.sorted_files listing = Ok files ∧
    ceil_truediv (Z.of_nat (length files)) cols = Ok rows ∧
    width atlas = cols * size ∧ height atlas = rows * size.
Proof.
  intros (files & rows & Hs & Hr & _ & _ & Hloop)%pack_ok_inv.
  exists files, rows. split; [done|]. split; [done|].
  apply (pack_loop_dims cols size folder) in Hloop. exact Hloop.
Qed.

(** X15. Every entry of the manifest belongs to a packed tile: its key is
    ["tile-"] followed by the stem of the file at some packing position
    [i], its rectangle is the cell of that position, and the rectangle
    lies inside the atlas canvas. *)
Theorem manifest_entries_are_cells
    (cols size : Z) (listing : list string) (folder : gmap string file)
    (atlas : Image) (mapping : gmap string Rect) (key : string) (r : Rect) :
  1 ≤ cols → 0 ≤ size →
  Atlas.pack cols size listing folder = Ok (atlas, mapping) →
  mapping !! key = Some r →
  ∃ files (i : nat) f,
    Atlas.sorted_files listing = Ok files ∧
    files !! i = Some f ∧
    key = "tile-" +:+ (splitext f).1 ∧
    r = mkRect (Z.of_nat i mod cols * size) (Z.of_nat i / cols * size)
          size size ∧
    0 ≤ rx r ∧ rx r + rwidth r ≤ width atlas ∧
    0 ≤ ry r ∧ ry r + rheight r ≤ height atlas.
Proof.
  intros Hcols Hsize Hpack Hkey.
  destruct (pack_ok_inv _ _ _ _ _ _ Hpack)
    as (files & rows & Hs & Hrows & _ & _ & Hloop).
  destruct (pack_loop_dims _ _ _ _ _ _ _ Hloop) as [Hw Hh].
  destruct (pack_loop_mapping _ _ _ _ _ _ _ _ _ Hloop Hkey)
    as [Hin|(i & f & Hi & -> & ->)]; [done|].
  exists files, i, f. rewrite Z.add_0_l. simpl in Hw, Hh.
  destruct (ceil_truediv_spec (Z.of_nat (length files)) cols Hcols)
    as (rows' & Hrows' & Hceil).
  rewrite Hrows in Hrows'. injection Hrows' as <-.
  pose proof (lookup_lt_Some _ _ _ Hi) as Hlt.
  pose proof (Z.mod_pos_bound (Z.of_nat i) cols ltac:(lia)) as Hm.
  pose proof (Z.div_pos (Z.of_nat i) cols ltac:(lia) ltac:(lia)) as Hd.
  pose proof (Z.div_lt_upper_bound (Z.of_nat i) cols rows ltac:(lia)
                ltac:(lia)) as Hu.
  rewrite Hw, Hh. simpl.
  remember (Z.of_nat i mod cols) as m. remember (Z.of_nat i / cols) as d.
  split_and!; try done; nia.
Qed.

Lemma manifest_entries_are_cells_witness :
  ∃ atlas mapping r,
    Atlas.pack 16 16 ["2.png"; "1.png"] tiles_1_2 = Ok (atlas, mapping) ∧
    mapping !! "tile-2" = Some r ∧
    ∃ files (i : nat) f,
      Atlas.sorted_files ["2.png"; "1.png"] = Ok files ∧
      files !! i = Some f ∧
      "tile-2" = "tile-" +:+ (splitext f).1 ∧
      r = mkRect (Z.of_nat i mod 16 * 16) (Z.of_nat i / 16 * 16) 16 16 ∧
      0 ≤ rx r ∧ rx r + rwidth r ≤ width atlas ∧
      0 ≤ ry r ∧ ry r + rheight r ≤ height atlas.
Proof.
  destruct (Atlas.pack 16 16 ["2.png"; "1.png"] tiles_1_2)
    as [[atlas mapping]|e] eqn:E; [|vm_compute in E; discriminate E].
  assert (Hr : mapping !! "tile-2" = Some (mkRect 16 0 16 16)).
  { vm_compute in E. injection E as _ <-. reflexivity. }
  exists atlas, mapping, (mkRect 16 0 16 16).
  split; [reflexivity|]. split; [exact Hr|].
  apply (manifest_entries_are_cells 16 16 ["2.png"; "1.png"] tiles_1_2
           atlas mapping "tile-2" (mkRect 16 0 16 16));
    [lia|lia|exact E|exact Hr].
Defined.

(** X16. When the packed files have pairwise distinct stems, the manifest
    has exactly one entry for each of them. *)
Theorem manifest_counts_tiles
    (cols size : Z) (listing files : list string)
    (folder : gmap string file)
    (atlas : Image) (mapping : gmap string Rect) :
  Atlas.sorted_files listing = Ok files →
  NoDup ((λ f, (splitext f).1) <$> files) →
  Atlas.pack cols size listing folder = Ok (atlas, mapping) →
  base.size mapping = length files.
Proof.
  intros Hs Hnd Hpack.
  destruct (pack_ok_inv _ _ _ _ _ _ Hpack)
    as (files' & rows & Hs' & _ & _ & _ & Hloop).
  rewrite Hs in Hs'. injection Hs' as <-.
  pose proof (pack_loop_size _ _ _ _ _ _ _ Hloop Hnd) as Hsize.
  simpl in Hsize. rewrite Hsize; [by rewrite map_size_empty|].
  intros f _. apply lookup_empty.
Qed.

Lemma manifest_counts_tiles_witness :
  ∃ atlas mapping,
    Atlas.pack 16 16 ["2.png"; "1.png"] tiles_1_2 = Ok (atlas, mapping) ∧
    base.size mapping = length ["1.png"; "2.png"].
Proof.
  destruct (Atlas.pack 16 16 ["2.png"; "1.png"] tiles_1_2)
    as [[atlas mapping]|e] eqn:E; [|vm_compute in E; discriminate E].
  exists atlas, mapping. split; [reflexivity|].
  apply (manifest_counts_tiles 16 16 ["2.png"; "1.png"] ["1.png"; "2.png"]
           tiles_1_2 atlas mapping); [reflexivity| |exact E].
  apply NoDup_ListNoDup. vm_compute.
  repeat constructor; simpl; intuition discriminate.
Defined.

(** X17. A file of the packing list that cannot be opened as an image
    stops the packer with an [OSError]; neither the atlas nor the manifest
    is written. *)
Theorem unreadable_tile_aborts_packer
    (cols size : Z) (listing files : list string)
    (folder : gmap string file) (g : string) :
  1 ≤ cols → 0 ≤ size →
  Atlas.sorted_files listing = Ok files →
  g ∈ files →
  (∀ im, folder !! g ≠ Some (Png im)) →
  Atlas.main_with cols size listing folder = (folder, Raise OSError).
Proof.
  intros Hcols Hsize Hs Hg Hbad.
  unfold Atlas.main_with, Atlas.pack. rewrite Hs. simpl.
  destruct (ceil_truediv_spec (Z.of_nat (length files)) cols Hcols)
    as (rows & -> & Hceil).
  simpl. unfold new.
  destruct (Z.ltb_spec (cols * size) 0); [nia|].
  destruct (Z.ltb_spec (rows * size) 0); [nia|]. simpl.
  by rewrite (pack_loop_unreadable cols size folder 0 files _ g).
Qed.

Lemma unreadable_tile_aborts_packer_witness :
  Atlas.main_with 16 16 ["3.png"; "1.png"]
    (<["3.png" := Blob 0]> {["1.png" := Png (solid 1)]})
  = (<["3.png" := Blob 0]> {["1.png" := Png (solid 1)]}, Raise OSError).
Proof.
  apply (unreadable_tile_aborts_packer 16 16 ["3.png"; "1.png"]
           ["1.png"; "3.png"]
           (<["3.png" := Blob 0]> {["1.png" := Png (solid 1)]}) "3.png");
    [lia|lia|reflexivity|by right; left|].
  intros im H. vm_compute in H. discriminate H.
Defined.

(** X18. The packer cannot be run twice on its folder: the atlas of the
    first run is written into the folder the tiles are read from, its name
    [tileset.png] passes the filter and has no integer stem, so every
    later run stops with a [ValueError] and writes nothing. *)
Theorem packer_second_run_aborts
    (cols size : Z) (listing listing2 : list string)
    (folder folder1 : gmap string file) :
  Atlas.main_with cols size listing folder = (folder1, Ok ()) →
  (∀ f, is_Some (folder1 !! f) → f ∈ listing2) →
  Atlas.main_with cols size listing2 folder1 = (folder1, Raise ValueError).
Proof.
  intros (atlas & mapping & _ & _ & _ & ->)%main_with_ok_inv Hl.
  unfold Atlas.main_with, Atlas.pack.
  rewrite (sorted_files_bad_stem listing2 Atlas.OUTPUT_IMAGE); [done| |done|].
  - apply Hl. rewrite lookup_insert_ne by done.
    rewrite lookup_insert_eq. by eexists.
  - intros k H. discriminate H.
Qed.

Lemma packer_second_run_aborts_witness :
  ∃ folder1,
    Atlas.main_with 16 16 ["2.png"; "1.png"] tiles_1_2 = (folder1, Ok ()) ∧
    Atlas.main_with 16 16 ["1.png"; "tileset.json"; "2.png"; "tileset.png"]
      folder1 = (folder1, Raise ValueError).
Proof.
  destruct (Atlas.pack 16 16 ["2.png"; "1.png"] tiles_1_2)
    as [[atlas mapping]|e] eqn:E; [|vm_compute in E; discriminate E].
  assert (H : Atlas.main_with 16 16 ["2.png"; "1.png"] tiles_1_2
              = (<[Atlas.OUTPUT_JSON := Json mapping]>
                   (<[Atlas.OUTPUT_IMAGE := Png atlas]> tiles_1_2), Ok ())).
  { destruct (pack_ok_dims _ _ _ _ _ _ E)
      as (files & rows & Hs & Hr & Hw & Hh).
    vm_compute in Hs. injection Hs as <-.
    vm_compute in Hr. injection Hr as <-.
    apply main_with_ok; [exact E|lia..]. }
  eexists. split; [exact H|].
  apply (packer_second_run_aborts 16 16 ["2.png"; "1.png"]
           ["1.png"; "tileset.json"; "2.png"; "tileset.png"]
           tiles_1_2 _ H).
  intros f [c Hc]. rewrite !elem_of_cons.
  destruct (decide (f = "tileset.json")) as [->|N1]; [by right; left|].
  destruct (decide (f = "tileset.png")) as [->|N2];
    [by right; right; right; left|].
  destruct (decide (f = "1.png")) as [->|N3]; [by left|].
  destruct (decide (f = "2.png")) as [->|N4]; [by right; right; left|].
  unfold Atlas.OUTPUT_JSON, Atlas.OUTPUT_IMAGE, tiles_1_2 in Hc.
  rewrite !lookup_insert_ne, lookup_singleton_ne in Hc by done.
  discriminate Hc.
Defined.

(** X19. The part of the canvas that no tile fills stays transparent:
    when no tile image is wider or higher than the tile size, every pixel
    of a grid cell whose number is not below the number of tiles is
    [(0, 0, 0, 0)]. *)
Theorem atlas_unused_cells_transparent
    (cols size : Z) (listing files : list string)
    (folder : gmap string file)
    (atlas : Image) (mapping : gmap string Rect) (px py : Z) :
  1 ≤ cols → 0 < size →
  Atlas.sorted_files listing = Ok files →
  (∀ g im, g ∈ files → folder !! g = Some (Png im) →
     width im ≤ size ∧ height im ≤ size) →
  Atlas.pack cols size listing folder = Ok (atlas, mapping) →
  0 ≤ px < cols * size → 0 ≤ py →
  Z.of_nat (length files) ≤ py / size * cols + px / size →
  getpixel atlas px py = transparent.
Proof.
  intros Hcols Hsize Hs Hsz Hpack Hpx Hpy Hcell.
  destruct (pack_ok_inv _ _ _ _ _ _ Hpack)
    as (files' & rows & Hs' & _ & _ & _ & Hloop).
  rewrite Hs in Hs'. injection Hs' as <-.
  rewrite (pack_loop_pixel _ _ _ _ _ _ _ _ _ Hloop); [done|].
  intros j g im Hj Hg. rewrite Z.add_0_l.
  destruct (Hsz g im) as [Hw Hh]; [by eapply list_elem_of_lookup_2|done|].
  destruct (inside im _ _) eqn:Hin; [exfalso|done].
  unfold inside, in_range in Hin.
  apply andb_true_iff in Hin
    as [[?%Z.leb_le ?%Z.ltb_lt]%andb_true_iff
          [?%Z.leb_le ?%Z.ltb_lt]%andb_true_iff].
  pose proof (lookup_lt_Some _ _ _ Hj) as Hlt.
  pose proof (Z.div_mod (Z.of_nat j) cols ltac:(lia)) as Hdm.
  pose proof (Z.mod_pos_bound (Z.of_nat j) cols ltac:(lia)) as Hmb.
  remember (Z.of_nat j mod cols) as m. remember (Z.of_nat j / cols) as d.
  assert (px / size = m) as Ex.
  { symmetry. apply (Z.div_unique px size m (px - m * size)); lia. }
  assert (py / size = d) as Ey.
  { symmetry. apply (Z.div_unique py size d (py - d * size)); lia. }
  rewrite Ex, Ey in Hcell. lia.
Qed.

Lemma atlas_unused_cells_transparent_witness :
  ∃ atlas mapping,
    Atlas.pack 16 16 ["2.png"; "1.png"] tiles_1_2 = Ok (atlas, mapping) ∧
    getpixel atlas 40 3 = transparent.
Proof.
  destruct (Atlas.pack 16 16 ["2.png"; "1.png"] tiles_1_2)
    as [[atlas mapping]|e] eqn:E; [|vm_compute in E; discriminate E].
  exists atlas, mapping. split; [reflexivity|].
  apply (atlas_unused_cells_transparent 16 16 ["2.png"; "1.png"]
           ["1.png"; "2.png"] tiles_1_2 atlas mapping 40 3);
    try lia; try reflexivity; try exact E.
  intros g im [->|Hg]%elem_of_cons;
    [|apply list_elem_of_singleton in Hg as ->];
    intros Him; vm_compute in Him; injection Him as <-;
    split; discriminate.
Defined.

(** ** More on the chunk baker *)

Lemma str_nonneg_no_minus n : 0 ≤ n → has_char "-" (str n) = false.
Proof.
  intros Hn. destruct (has_char "-" (str n)) eqn:E; [|done].
  unfold str in E. destruct n as [|p|p]; [done| |lia].
  cbn [Z.to_int NilEmpty.string_of_int] in E.
  by apply string_of_uint_chars in E.
Qed.

Lemma chunk_name_inj cx cy cx' cy' :
  0 ≤ cx → 0 ≤ cx' →
  "grass-chunk-" +:+ str cx +:+ "-" +:+ str cy +:+ ".png"
  = "grass-chunk-" +:+ str cx' +:+ "-" +:+ str cy' +:+ ".png" →
  cx = cx' ∧ cy = cy'.
Proof.
  intros Hx Hx' E. injection E as E.
  change (str cx +:+ "-" +:+ str cy +:+ ".png")
    with (str cx +:+ String "-"%char (str cy +:+ String "."%char "png")) in E.
  change (str cx' +:+ "-" +:+ str cy' +:+ ".png")
    with (str cx' +:+ String "-"%char (str cy' +:+ String "."%char "png"))
    in E.
  apply app_sep_inj in E as [Ex E]; [|by apply str_nonneg_no_minus..].
  apply app_sep_inj in E as [Ey _]; [|apply str_no_dot..].
  by apply str_inj in Ex, Ey.
Qed.

(** X20. The chunks of one run have pairwise distinct file names, so no
    chunk is saved over another, and they all hold the same image. *)
Theorem baker_chunks_distinct_and_equal
    (blend : rgba → rgba → Z → rgba) (ts cs map_cols map_rows : Z)
    (tile : Image) (saved : list (string * Image)) :
  0 < cs → 0 ≤ ts →
  Baker.bake blend ts cs tile map_cols map_rows = Ok saved →
  NoDup saved.*1 ∧
  ∀ e1 e2, e1 ∈ saved → e2 ∈ saved → e1.2 = e2.2.
Proof.
  intros Hcs Hts.
  destruct (bake_ok blend ts cs tile Hcs Hts map_cols map_rows)
    as (chunk_cols & chunk_rows & _ & _ & ->).
  intros [= <-]. split.
  - rewrite <- list_fmap_compose. apply NoDup_fmap_2_strong; [|apply NoDup_grid].
    intros [y x] [y' x'] Hc Hc'. simpl.
    apply elem_of_grid in Hc, Hc'; try lia.
    intros [-> ->]%chunk_name_inj; [done|lia|lia].
  - intros e1 e2 (c1 & -> & _)%list_elem_of_fmap
      (c2 & -> & _)%list_elem_of_fmap. done.
Qed.

Lemma baker_chunks_distinct_and_equal_witness :
  ∃ saved,
    Baker.bake (λ dst src mask, if mask =? 0 then dst else src) 16 16
      (solid 3) 33 17 = Ok saved ∧
    NoDup saved.*1 ∧ ∀ e1 e2, e1 ∈ saved → e2 ∈ saved → e1.2 = e2.2.
Proof.
  destruct (bake_ok (λ dst src mask, if mask =? 0 then dst else src) 16 16
              (solid 3) ltac:(lia) ltac:(lia) 33 17)
    as (cc & cr & _ & _ & E).
  eexists. split; [exact E|].
  apply (baker_chunks_distinct_and_equal
           (λ dst src mask, if mask =? 0 then dst else src) 16 16 33 17
           (solid 3)); [lia|lia|exact E].
Defined.

Section ChunkPixels.
Variable blend : rgba → rgba → Z → rgba.
Variables (ts : Z) (tile : Image) (px py : Z).

Local Abbreviation paste_at :=
  (λ (img : Image) (c : Z * Z),
     paste_masked blend img tile tile (c.2 * ts) (c.1 * ts)).

(** Pastes whose boxes miss a pixel leave it alone. *)
Lemma fold_paste_miss l img :
  (∀ c, c ∈ l → inside tile (px - c.2 * ts) (py - c.1 * ts) = false) →
  getpixel (foldl paste_at img l) px py = getpixel img px py.
Proof.
  revert img. induction l as [|c l IH]; intros img Hmiss; [done|].
  simpl. rewrite IH by (intros; apply Hmiss; by right).
  simpl. rewrite (Hmiss c) by left.
  by rewrite andb_false_r.
Qed.

(** The one paste whose box holds the pixel blends the tile into it. *)
Lemma fold_paste_hit l img c0 :
  NoDup l → c0 ∈ l →
  (∀ c, c ∈ l → c ≠ c0 →
     inside tile (px - c.2 * ts) (py - c.1 * ts) = false) →
  inside img px py = true →
  inside tile (px - c0.2 * ts) (py - c0.1 * ts) = true →
  getpixel (foldl paste_at img l) px py
  = blend (getpixel img px py)
      (getpixel tile (px - c0.2 * ts) (py - c0.1 * ts))
      (alpha (getpixel tile (px - c0.2 * ts) (py - c0.1 * ts))).
Proof.
  revert img. induction l as [|c l IH]; intros img Hnd Hin Hmiss Himg Htile.
  { by apply elem_of_nil in Hin. }
  apply NoDup_cons in Hnd as [Hc Hnd]. simpl.
  destruct (decide (c = c0)) as [->|Hne].
  - rewrite fold_paste_miss.
    + simpl. by rewrite Himg, Htile.
    + intros c Hcl. apply Hmiss; [by right|]. by intros ->.
  - apply elem_of_cons in Hin as [->|Hin]; [done|].
    rewrite IH; try done.
    + simpl. rewrite (Hmiss c); [|by left|done].
      by rewrite andb_false_r.
    + intros c' Hc'. apply Hmiss. by right.
Qed.
End ChunkPixels.

(** X21. When the grass tile is exactly one tile size wide and high, every
    pixel of every chunk is filled from the tile: the pixel at [(px, py)]
    is the blend of the transparent canvas with pixel
    [(px mod tileSize, py mod tileSize)] of the tile, the tile's own alpha
    being the mask.  No pixel is left as the blank canvas had it, and none
    is blended twice. *)
Theorem baker_chunk_pixels
    (blend : rgba → rgba → Z → rgba) (ts cs map_cols map_rows : Z)
    (tile : Image) (saved : list (string * Image))
    (name : string) (chunk : Image) (px py : Z) :
  0 < cs → 0 < ts → width tile = ts → height tile = ts →
  Baker.bake blend ts cs tile map_cols map_rows = Ok saved →
  (name, chunk) ∈ saved →
  0 ≤ px < cs * ts → 0 ≤ py < cs * ts →
  getpixel chunk px py
  = blend transparent (getpixel tile (px mod ts) (py mod ts))
      (alpha (getpixel tile (px mod ts) (py mod ts))).
Proof.
  intros Hcs Hts Hw Hh Hbake Hin Hpx Hpy.
  destruct (bake_ok blend ts cs tile Hcs ltac:(lia) map_cols map_rows)
    as (chunk_cols & chunk_rows & _ & _ & E).
  rewrite E in Hbake. injection Hbake as <-.
  apply list_elem_of_fmap in Hin as (c & [= -> ->] & _).
  unfold chunk_stage. rewrite take_ge
    by (pose proof (grid_length cs cs); lia).
  pose proof (Z.div_mod px ts ltac:(lia)) as Hdx.
  pose proof (Z.div_mod py ts ltac:(lia)) as Hdy.
  pose proof (Z.mod_pos_bound px ts Hts) as Hmx.
  pose proof (Z.mod_pos_bound py ts Hts) as Hmy.
  assert (Ex : px - px / ts * ts = px mod ts) by lia.
  assert (Ey : py - py / ts * ts = py mod ts) by lia.
  rewrite (fold_paste_hit blend ts tile px py (grid cs cs) _
             (py / ts, px / ts)); simpl.
  - by rewrite Ex, Ey.
  - apply NoDup_grid.
  - apply elem_of_grid; [lia..|].
    remember (px / ts) as qx. remember (py / ts) as qy. nia.
  - intros [y x] _ Hne. simpl.
    destruct (inside tile _ _) eqn:Hins; [exfalso|done].
    unfold inside, in_range in Hins. rewrite Hw, Hh in Hins.
    apply andb_true_iff in Hins
      as [[?%Z.leb_le ?%Z.ltb_lt]%andb_true_iff
            [?%Z.leb_le ?%Z.ltb_lt]%andb_true_iff].
    apply Hne. f_equal.
    + apply (Z.div_unique py ts y (py - y * ts)); lia.
    + apply (Z.div_unique px ts x (px - x * ts)); lia.
  - unfold inside, in_range. simpl.
    repeat match goal with
           | |- context [?a <=? ?b] => destruct (Z.leb_spec a b); [|lia]
           | |- context [?a <? ?b] => destruct (Z.ltb_spec a b); [|lia]
           end.
    done.
  - unfold inside, in_range. rewrite Ex, Ey, Hw, Hh.
    repeat match goal with
           | |- context [?a <=? ?b] => destruct (Z.leb_spec a b); [|lia]
           | |- context [?a <? ?b] => destruct (Z.ltb_spec a b); [|lia]
           end.
    done.
Qed.

Lemma baker_chunk_pixels_witness :
  ∃ saved chunk,
    Baker.bake (λ dst src mask, if mask =? 0 then dst else src) 16 16
      (solid 3) 33 17 = Ok saved ∧
    ("grass-chunk-0-0.png", chunk) ∈ saved ∧
    getpixel chunk 20 250
    = (λ dst src mask, if mask =? 0 then dst else src) transparent
        (getpixel (solid 3) (20 mod 16) (250 mod 16))
        (alpha (getpixel (solid 3) (20 mod 16) (250 mod 16))).
Proof.
  destruct (bake_ok (λ dst src mask, if mask =? 0 then dst else src) 16 16
              (solid 3) ltac:(lia) ltac:(lia) 33 17)
    as (cc & cr & Hc & Hr & E).
  vm_compute in Hc. injection Hc as <-.
  vm_compute in Hr. injection Hr as <-.
  assert (Hin : ("grass-chunk-0-0.png",
                 chunk_stage (λ dst src mask, if mask =? 0 then dst else src)
                   16 16 (solid 3) (Z.to_nat (16 * 16)))
                ∈ (λ c : Z * Z,
                     ("grass-chunk-" +:+ str c.2 +:+ "-" +:+ str c.1
                        +:+ ".png",
                      chunk_stage
                        (λ dst src mask, if mask =? 0 then dst else src)
                        16 16 (solid 3) (Z.to_nat (16 * 16))))
                  <$> grid (Z.max 0 2) (Z.max 0 3)).
  { apply list_elem_of_fmap. exists (0, 0). split; [reflexivity|].
    apply elem_of_grid; lia. }
  eexists _, _. split; [exact E|]. split; [exact Hin|].
  eapply (baker_chunk_pixels
            (λ dst src mask, if mask =? 0 then dst else src) 16 16 33 17
            (solid 3) _ "grass-chunk-0-0.png" _ 20 250);
    [lia|lia|reflexivity|reflexivity|exact E|exact Hin|lia|lia].
Defined.

(** ** Splitting, renaming and packing in sequence *)

Lemma save_all_inv out saved k v :
  save_all out saved !! k = Some v →
  out !! k = Some v ∨ ∃ t, (k, t) ∈ saved ∧ v = Png t.
Proof.
  revert out. induction saved as [|e saved IH]; intros out; [by left|].
  rewrite save_all_cons. intros [Hin|(t & Ht & ->)]%IH.
  - apply lookup_insert_Some in Hin as [[<- <-]|[_ Hin]]; [|by left].
    right. exists e.2. split; [|done]. destruct e. by left.
  - right. exists t. split; [by right|done].
Qed.

Lemma png_name_inj a b : str a +:+ ".png" = str b +:+ ".png" → a = b.
Proof.
  change ".png" with (String "."%char "png").
  intros [E _]%app_sep_inj; [|apply str_no_dot..]. by apply str_inj.
Qed.

(** Reordering a listing whose keys are pairwise distinct does not change
    the packing order. *)
Lemma sorted_files_perm l1 l2 :
  l1 ≡ₚ l2 →
  (∀ f g k, f ∈ l1 → g ∈ l1 →
     Atlas.is_png f = true → Atlas.is_png g = true →
     key_of f = Some k → key_of g = Some k → f = g) →
  Atlas.sorted_files l1 = Atlas.sorted_files l2.
Proof.
  intros Hperm Hkeys. unfold Atlas.sorted_files.
  assert (Hf : List.filter Atlas.is_png l1 ≡ₚ List.filter Atlas.is_png l2).
  { clear Hkeys. induction Hperm; simpl; try done.
    - destruct (Atlas.is_png x); [by constructor|done].
    - destruct (Atlas.is_png x), (Atlas.is_png y); try done. constructor.
    - by etrans. }
  pose proof (map_m_perm Atlas.stem_key _ _ stem_key_raises Hf) as Hm.
  destruct (map_m Atlas.stem_key (List.filter Atlas.is_png l1))
    as [keyed1|e1] eqn:E1,
      (map_m Atlas.stem_key (List.filter Atlas.is_png l2))
    as [keyed2|e2] eqn:E2; simpl; try done; [|by subst].
  rewrite (sort_by_key_perm keyed1 keyed2); [done|done|].
  intros [k f] [k' g] Hx Hy. simpl. intros <-.
  pose proof (map_m_stem_key _ _ E1) as [_ Hk].
  pose proof (Hk _ Hx) as Hkx. pose proof (Hk _ Hy) as Hky.
  simpl in Hkx, Hky.
  apply map_m_ok in E1.
  destruct (Forall2_elem_of_r _ _ _ _ E1 Hx)
    as (f' & Hf' & [-> _]%stem_key_ok).
  destruct (Forall2_elem_of_r _ _ _ _ E1 Hy)
    as (g' & Hg' & [-> _]%stem_key_ok).
  apply list_elem_of_In, filter_In in Hf' as [Hf1 Hf2].
  apply list_elem_of_In, filter_In in Hg' as [Hg1 Hg2].
  f_equal. apply (Hkeys f' g' k); by rewrite ?list_elem_of_In.
Qed.

Lemma sort_by_key_sorted_id l :
  StronglySorted (λ a b : Z * string, a.1 ≤ b.1) l →
  Atlas.sort_by_key l = l.
Proof.
  unfold Atlas.sort_by_key. induction 1 as [|x l _ IH Hx]; [done|].
  simpl. rewrite IH. destruct l as [|y l]; [done|]. simpl.
  apply Forall_cons in Hx as [Hxy _].
  by destruct (Z.leb_spec x.1 y.1); [|lia].
Qed.

(** The names [1.png], [2.png], ..., [N.png] are packed in this order. *)
Lemma sorted_files_numbered (N : Z) :
  Atlas.sorted_files ((λ n, str (n + 1) +:+ ".png") <$> range N)
  = Ok ((λ n, str (n + 1) +:+ ".png") <$> range N).
Proof.
  unfold Atlas.sorted_files.
  assert (Hfilter : ∀ l : list Z,
             List.filter Atlas.is_png ((λ n, str (n + 1) +:+ ".png") <$> l)
             = (λ n, str (n + 1) +:+ ".png") <$> l).
  { induction l as [|n l IH]; [done|]. rewrite fmap_cons. simpl.
    destruct (renamed_names_key (n + 1)) as [-> _]. by rewrite IH. }
  rewrite Hfilter.
  assert (Hkeyed : ∀ l : list Z,
             map_m Atlas.stem_key ((λ n, str (n + 1) +:+ ".png") <$> l)
             = Ok ((λ n, (n + 1, str (n + 1) +:+ ".png")) <$> l)).
  { induction l as [|n l IH]; [done|]. rewrite !fmap_cons. cbn [map_m].
    destruct (renamed_names_key (n + 1)) as [_ ->]. cbn [Py.bind].
    by rewrite IH. }
  rewrite Hkeyed. cbn [Py.bind]. rewrite sort_by_key_sorted_id.
  - by rewrite <- list_fmap_compose.
  - unfold range. generalize 0%nat.
    induction (Z.to_nat N) as [|m IH]; intros a; simpl; constructor.
    + apply IH.
    + apply Forall_forall. intros p.
      rewrite <- !list_fmap_compose.
      intros (n & -> & Hn)%list_elem_of_fmap.
      apply elem_of_seq in Hn. simpl. lia.
Qed.

(** The finished atlas shows tile [i] in cell [i] when no tile image is
    larger than a cell. *)
Lemma pack_cell_pixels cols size folder files rows atlas mapping
    (i : nat) f img u v :
  1 ≤ cols → 0 ≤ size →
  Z.of_nat (length files) ≤ rows * cols →
  for_each (Atlas.enumerate_from 0 files) (Atlas.place cols size folder)
    (mkImage (cols * size) (rows * size) (λ _ _, transparent), ∅)
  = Ok (atlas, mapping) →
  (∀ g im, g ∈ files → folder !! g = Some (Png im) →
     width im ≤ size ∧ height im ≤ size) →
  files !! i = Some f → folder !! f = Some (Png img) →
  0 ≤ u < width img → 0 ≤ v < height img →
  getpixel atlas (Z.of_nat i mod cols * size + u)
    (Z.of_nat i / cols * size + v)
  = getpixel img u v.
Proof.
  intros Hcols Hsize Hlen Hloop Hsz Hi Himg Hu Hv.
  pose proof (lookup_lt_Some _ _ _ Hi) as Hlt.
  pose proof Hloop as Hsplit.
  rewrite <- (take_drop_middle files i f Hi) in Hsplit.
  rewrite enumerate_from_app, for_each_app in Hsplit.
  destruct (for_each (Atlas.enumerate_from 0 (take i files)) _ _)
    as [before|] eqn:Hbefore; [|done].
  rewrite length_take_le in Hsplit by lia.
  simpl in Hsplit. rewrite (place_ok _ _ _ _ _ _ img) in Hsplit by done.
  simpl in Hsplit.
  destruct (Hsz f img) as [Hwi Hhi];
    [by eapply list_elem_of_lookup_2|done|].
  destruct (pack_loop_dims _ _ _ _ _ _ _ Hbefore) as [Hbw Hbh].
  simpl in Hbw, Hbh.
  pose proof (Z.mod_pos_bound (Z.of_nat i) cols ltac:(lia)) as Hm.
  pose proof (Z.div_pos (Z.of_nat i) cols ltac:(lia) ltac:(lia)) as Hd.
  pose proof (Z.div_lt_upper_bound (Z.of_nat i) cols rows ltac:(lia)
                ltac:(lia)) as Hub.
  rewrite (pack_loop_pixel _ _ _ _ _ _ _ _ _ Hsplit).
  - simpl. unfold inside, in_range. rewrite Hbw, Hbh, !Z.add_0_l.
    replace (Z.of_nat i mod cols * size + u - Z.of_nat i mod cols * size)
      with u by lia.
    replace (Z.of_nat i / cols * size + v - Z.of_nat i / cols * size)
      with v by lia.
    remember (Z.of_nat i mod cols) as m. remember (Z.of_nat i / cols) as d.
    repeat match goal with
           | |- context [?a <=? ?b] => destruct (Z.leb_spec a b); [|nia]
           | |- context [?a <? ?b] => destruct (Z.ltb_spec a b); [|nia]
           end.
    done.
  - intros j g im Hj Hg. rewrite lookup_drop in Hj.
    destruct (Hsz g im) as [Hwg Hhg];
      [by eapply list_elem_of_lookup_2|done|].
    destruct (inside im _ _) eqn:Hin; [exfalso|done].
    unfold inside, in_range in Hin.
    apply andb_true_iff in Hin
      as [[?%Z.leb_le ?%Z.ltb_lt]%andb_true_iff
            [?%Z.leb_le ?%Z.ltb_lt]%andb_true_iff].
    clear Hm Hd Hub Hsplit.
    remember (0 + Z.of_nat i + 1 + Z.of_nat j) as b eqn:Eb.
    assert (Hb : 0 ≤ b ∧ Z.of_nat i ≠ b) by lia. clear Eb.
    remember (Z.of_nat i mod cols * size) as xi.
    remember (Z.of_nat i / cols * size) as yi.
    remember (b mod cols * size) as xb.
    remember (b / cols * size) as yb.
    apply (atlas_cells_disjoint cols size (Z.of_nat i) b u v
             (xi + u - xb) (yi + v - yb));
      subst; lia.
Qed.

Section Pipeline.
Variables (tileset : Image) (w h : Z).
Hypotheses (Ew : width tileset / 16 = w) (Eh : height tileset / 16 = h).
Hypotheses (Hw : 1 ≤ w) (Hh : 0 ≤ h).

Local Abbreviation cell_save :=
  (λ c : Z * Z, (cell_name 16 16 c, cell_tile tileset 16 16 c)).
Local Abbreviation numbered :=
  (λ c : Z * Z, str (c.1 * w + c.2 + 1) +:+ ".png").

Lemma pipeline_saved :
  Splitter.split_tileset tileset 16 16 false = Ok (cell_save <$> grid h w).
Proof.
  rewrite split_tileset_cells by lia. rewrite Ew, Eh, !Z.max_r by lia.
  unfold cell_saves. by rewrite (bind_singleton_fmap cell_save).
Qed.

Lemma pipeline_names_NoDup : NoDup (cell_save <$> grid h w).*1.
Proof.
  rewrite <- list_fmap_compose.
  apply NoDup_fmap_2_strong; [|apply NoDup_grid].
  intros c1 c2 _ _. simpl. apply cell_name_inj; lia.
Qed.

Lemma pipeline_split_lookup c :
  c ∈ grid h w →
  save_all ∅ (cell_save <$> grid h w) !! cell_name 16 16 c
  = Some (Png (cell_tile tileset 16 16 c)).
Proof.
  intros Hc. apply save_all_lookup; [apply pipeline_names_NoDup|].
  apply list_elem_of_fmap. by exists c.
Qed.

Lemma pipeline_split_inv k v :
  save_all ∅ (cell_save <$> grid h w) !! k = Some v →
  ∃ c, c ∈ grid h w ∧ k = cell_name 16 16 c
       ∧ v = Png (cell_tile tileset 16 16 c).
Proof.
  intros [Hin|(t & Ht & ->)]%save_all_inv; [by rewrite lookup_empty in Hin|].
  apply list_elem_of_fmap in Ht as (c & [= -> ->] & Hc). eauto.
Qed.

Lemma pipeline_new_name c :
  new_name_of w (cell_name 16 16 c) = Some (numbered c).
Proof.
  unfold new_name_of, cell_name.
  assert (Renamer.is_png
            (str (c.2 * 16) +:+ "_" +:+ str (c.1 * 16) +:+ ".png") = true)
    as ->.
  { unfold Renamer.is_png.
    rewrite (append_assoc (str _)), (append_assoc (_ +:+ "_")).
    apply endswith_app. }
  rewrite coordinate_name_stem. cbn [fst]. rewrite parse_xy_str.
  unfold Renamer.tile_id. by rewrite !Z.div_mul by lia.
Qed.

Lemma pipeline_numbering_inj c1 c2 :
  c1 ∈ grid h w → c2 ∈ grid h w → numbered c1 = numbered c2 → c1 = c2.
Proof.
  destruct c1 as [y1 x1], c2 as [y2 x2].
  intros H1%elem_of_grid H2%elem_of_grid; [|lia..].
  intros E%png_name_inj. simpl in E.
  assert (y1 = y2) by nia. subst. f_equal. lia.
Qed.

(** The numbered names are [1.png] to [N.png]. *)
Lemma pipeline_numbered_range k :
  (∃ c, c ∈ grid h w ∧ k = numbered c)
  ↔ k ∈ (λ n, str (n + 1) +:+ ".png") <$> range (h * w).
Proof.
  rewrite list_elem_of_fmap. split.
  - intros ([y x] & Hc & ->). apply elem_of_grid in Hc; [|lia..].
    exists (y * w + x). split; [done|]. apply elem_of_range. simpl. nia.
  - intros (n & -> & Hn%elem_of_range).
    pose proof (Z.div_mod n w ltac:(lia)) as Hdm.
    pose proof (Z.mod_pos_bound n w ltac:(lia)) as Hmb.
    exists (n / w, n mod w). split.
    + apply elem_of_grid; [lia..|]. split; [|done].
      split; [apply Z.div_pos; lia|].
      apply Z.div_lt_upper_bound; lia.
    + simpl. do 2 f_equal. lia.
Qed.
End Pipeline.

(** A listing of a folder, in whatever order [os.listdir] gives it. *)
Lemma listing_of_keys (m : gmap string file) l :
  l ≡ₚ (map_to_list m).*1 → NoDup l ∧ ∀ f, f ∈ l ↔ is_Some (m !! f).
Proof.
  intros Hp. split.
  - rewrite Hp. apply NoDup_fst_map_to_list.
  - intros f. rewrite Hp, list_elem_of_fmap. split.
    + intros ([k v] & -> & H%elem_of_map_to_list). eauto.
    + intros [v Hv]. exists (f, v). split; [done|].
      by apply elem_of_map_to_list.
Qed.

Section PipelineRun.
Variables (tileset : Image) (w h : Z).
Hypotheses (Ew : width tileset / 16 = w) (Eh : height tileset / 16 = h).
Hypotheses (Hw : 1 ≤ w) (Hh : 0 ≤ h).

Local Abbreviation split_folder :=
  (save_all ∅ ((λ c : Z * Z, (cell_name 16 16 c, cell_tile tileset 16 16 c))
               <$> grid h w)).
Local Abbreviation numbered' :=
  (λ c : Z * Z, str (c.1 * w + c.2 + 1) +:+ ".png").
Local Abbreviation numbered_files :=
  ((λ n, str (n + 1) +:+ ".png") <$> range (h * w)).

Lemma cell_name_renamable c : renamable (cell_name 16 16 c).
Proof.
  pose proof (pipeline_new_name w c) as E. unfold new_name_of in E.
  split.
  - by destruct (Renamer.is_png _).
  - destruct (Renamer.is_png _); [|done].
    destruct (Renamer.parse_xy _) as [[x y]|]; [eauto|done].
Qed.

(** The renamer on the folder the splitter filled: every tile ends up
    under its number, and nothing else is in the folder. *)
Lemma pipeline_run listing1 :
  NoDup listing1 →
  (∀ f, f ∈ listing1 ↔ is_Some (split_folder !! f)) →
  ∃ final,
    Renamer.run w listing1 split_folder = Ok final ∧
    (∀ c, c ∈ grid h w →
       final.1 !! numbered' c = Some (Png (cell_tile tileset 16 16 c))) ∧
    (∀ k, is_Some (final.1 !! k) → ∃ c, c ∈ grid h w ∧ k = numbered' c).
Proof.
  intros Hnd Hdom.
  assert (Hinj : ∀ g g', g ∈ listing1 → g' ∈ listing1 →
            final_name w g = final_name w g' → g = g').
  { intros g g' [v Hg]%Hdom [v' Hg']%Hdom.
    apply pipeline_split_inv in Hg as (c & Hc & -> & _).
    apply pipeline_split_inv in Hg' as (c' & Hc' & -> & _).
    unfold final_name. rewrite !(pipeline_new_name w). simpl.
    intros E. by rewrite (pipeline_numbering_inj tileset w h Ew Eh Hw Hh c c' Hc Hc' E). }
  destruct (run_ok w listing1 (split_folder, [])) as [final Hrun]; [done|..].
  { intros f Hf _. by apply Hdom. }
  exists final. split; [done|]. split.
  - intros c Hc.
    pose proof (run_keeps_every_file w listing1 split_folder final
                  (cell_name 16 16 c) _ Hnd Hdom Hinj Hrun
                  (pipeline_split_lookup tileset w h c Hc)) as E.
    unfold final_name in E. by rewrite (pipeline_new_name w) in E.
  - intros k [v Hv].
    destruct (run_origin _ _ _ _ _ _ Hrun Hv) as (f & Hf & [->|[_ Hnew]]);
      simpl in Hf;
      apply pipeline_split_inv in Hf as (c & Hc & -> & _).
    + destruct (run_leftover _ _ _ _ _ Hrun (mk_is_Some _ _ Hv)
                  (cell_name_renamable c)) as [Hin Hnot].
      by apply Hdom in Hin.
    + rewrite (pipeline_new_name w) in Hnew. injection Hnew as <-. eauto.
Qed.

Lemma numbered_files_NoDup : NoDup numbered_files.
Proof.
  apply NoDup_fmap_2; [|apply NoDup_range].
  intros a b E%png_name_inj. lia.
Qed.

Lemma numbered_files_key f k :
  f ∈ numbered_files → key_of f = Some k → f = str k +:+ ".png".
Proof.
  intros (n & -> & _)%list_elem_of_fmap. unfold key_of.
  rewrite numbered_name_stem. cbn [fst]. rewrite int_str.
  by intros [= <-].
Qed.

(** The packer's sorted list of the renamed folder is [1.png], [2.png],
    ... whatever the order of the listing. *)
Lemma pipeline_sorted listing2 :
  NoDup listing2 → (∀ k, k ∈ listing2 ↔ k ∈ numbered_files) →
  Atlas.sorted_files listing2 = Ok numbered_files.
Proof.
  intros Hnd Hmem.
  rewrite <- sorted_files_numbered. apply sorted_files_perm.
  - apply NoDup_Permutation; [done|apply numbered_files_NoDup|done].
  - intros f g k Hf%Hmem Hg%Hmem _ _ Kf Kg.
    rewrite (numbered_files_key f k), (numbered_files_key g k); done.
Qed.

Lemma numbered_files_lookup c :
  c ∈ grid h w →
  numbered_files !! Z.to_nat (c.1 * w + c.2) = Some (numbered' c).
Proof.
  destruct c as [y x]. intros Hc%elem_of_grid; [|lia..]. simpl.
  assert (0 ≤ y * w + x < h * w) by nia.
  rewrite list_lookup_fmap, range_lookup by lia. simpl.
  by rewrite Z2Nat.id by lia.
Qed.

(** The packer on the renamed folder. *)
Lemma pipeline_pack cols (folder : gmap string file) listing2 :
  1 ≤ cols →
  (∀ c, c ∈ grid h w →
     folder !! numbered' c = Some (Png (cell_tile tileset 16 16 c))) →
  (∀ k, is_Some (folder !! k) → ∃ c, c ∈ grid h w ∧ k = numbered' c) →
  NoDup listing2 → (∀ f, f ∈ listing2 ↔ is_Some (folder !! f)) →
  ∃ rows atlas mapping,
    ceil_truediv (h * w) cols = Ok rows ∧
    Atlas.pack cols 16 listing2 folder = Ok (atlas, mapping) ∧
    width atlas = cols * 16 ∧ height atlas = rows * 16 ∧
    ∀ c u v, c ∈ grid h w → 0 ≤ u < 16 → 0 ≤ v < 16 →
      getpixel atlas ((c.1 * w + c.2) mod cols * 16 + u)
                     ((c.1 * w + c.2) / cols * 16 + v)
      = getpixel tileset (c.2 * 16 + u) (c.1 * 16 + v).
Proof.
  intros Hcols Hfwd Hback Hnd Hdom.
  assert (Hmem : ∀ k, k ∈ listing2 ↔ k ∈ numbered_files).
  { intros k. rewrite Hdom, <- (pipeline_numbered_range w h Hw Hh). split.
    - apply Hback.
    - intros (c & Hc & ->). rewrite (Hfwd c Hc). by eexists. }
  pose proof (pipeline_sorted listing2 Hnd Hmem) as Hsorted.
  assert (Hlen : Z.of_nat (length numbered_files) = h * w).
  { rewrite length_fmap. apply range_length. nia. }
  destruct (ceil_truediv_spec (h * w) cols Hcols) as (rows & Hrows & Hceil).
  assert (0 ≤ rows) by nia.
  set (blank := mkImage (cols * 16) (rows * 16) (λ _ _, transparent)).
  assert (Hnew : new (cols * 16) (rows * 16) transparent = Ok blank).
  { unfold new. destruct (Z.ltb_spec (cols * 16) 0); [nia|].
    destruct (Z.ltb_spec (rows * 16) 0); [nia|]. done. }
  assert (Hall : ∀ g, g ∈ numbered_files →
            ∃ im, folder !! g = Some (Png im)).
  { intros g (c & Hc & ->)%(pipeline_numbered_range w h Hw Hh). eauto. }
  destruct (pack_loop_ok cols 16 folder 0 numbered_files (blank, ∅) Hall)
    as ([atlas mapping] & Hloop & Hwd & Hht).
  exists rows, atlas, mapping.
  split; [done|]. split; [|split; [done|split; [done|]]].
  { unfold Atlas.pack. rewrite Hsorted. simpl. rewrite Hlen, Hrows. simpl.
    rewrite Hnew. simpl. by rewrite Hloop. }
  intros c u v Hc Hu Hv.
  pose proof (numbered_files_lookup c Hc) as Hi.
  pose proof Hc as Hc'. destruct c as [y x].
  apply elem_of_grid in Hc'; [|lia..]. simpl in Hc'.
  assert (0 ≤ y * w + x) by nia.
  assert (Hfit : Z.of_nat (length numbered_files) ≤ rows * cols)
    by (rewrite Hlen; lia).
  pose proof (pack_cell_pixels cols 16 folder numbered_files rows atlas
                mapping (Z.to_nat (y * w + x)) (numbered' (y, x))
                (cell_tile tileset 16 16 (y, x)) u v Hcols ltac:(lia)
                Hfit Hloop) as Hpx.
  rewrite Z2Nat.id in Hpx by done. cbn [fst snd] in *.
  rewrite Hpx.
  - rewrite (cell_tile_pixel tileset 16 16 ltac:(lia) ltac:(lia) (y, x) u v);
      cbn [fst snd]; [done|lia..].
  - intros g im (c & Hg & ->)%(pipeline_numbered_range w h Hw Hh).
    rewrite (Hfwd c Hg). intros [= <-]. simpl. lia.
  - done.
  - by apply (Hfwd (y, x)).
  - simpl. lia.
  - simpl. lia.
Qed.
End PipelineRun.

(** The three scripts in sequence, on the folder the splitter fills and
    the renamer then works in. *)
Lemma pipeline_cells tileset cols :
  1 ≤ width tileset / 16 → 0 ≤ height tileset → 1 ≤ cols →
  ∃ saved,
    Splitter.split_tileset tileset 16 16 false = Ok saved ∧
    ∀ listing1, listing1 ≡ₚ (map_to_list (save_all ∅ saved)).*1 →
    ∃ final,
      Renamer.run (width tileset / 16) listing1 (save_all ∅ saved) = Ok final ∧
      ∀ listing2, listing2 ≡ₚ (map_to_list final.1).*1 →
      ∃ rows atlas mapping,
        ceil_truediv (height tileset / 16 * (width tileset / 16)) cols
        = Ok rows ∧
        Atlas.pack cols 16 listing2 final.1 = Ok (atlas, mapping) ∧
        width atlas = cols * 16 ∧ height atlas = rows * 16 ∧
        ∀ r c u v,
          0 ≤ r < height tileset / 16 → 0 ≤ c < width tileset / 16 →
          0 ≤ u < 16 → 0 ≤ v < 16 →
          getpixel atlas ((r * (width tileset / 16) + c) mod cols * 16 + u)
                         ((r * (width tileset / 16) + c) / cols * 16 + v)
          = getpixel tileset (c * 16 + u) (r * 16 + v).
Proof.
  intros Hw Hht Hcols.
  assert (Hh : 0 ≤ height tileset / 16) by (apply Z.div_pos; lia).
  remember (width tileset / 16) as w eqn:Ew.
  remember (height tileset / 16) as h eqn:Eh.
  symmetry in Ew, Eh.
  eexists. split; [apply (pipeline_saved tileset w h Ew Eh Hw Hh)|].
  intros listing1 [Hnd1 Hdom1]%listing_of_keys.
  destruct (pipeline_run tileset w h Ew Eh Hw Hh listing1 Hnd1 Hdom1)
    as (final & Hrun & Hfwd & Hback).
  exists final. split; [done|].
  intros listing2 [Hnd2 Hdom2]%listing_of_keys.
  destruct (pipeline_pack tileset w h Ew Eh Hw Hh cols final.1 listing2 Hcols
              Hfwd Hback Hnd2 Hdom2)
    as (rows & atlas & mapping & Hrows & Hpack & Hwd & Hhd & Hpx).
  exists rows, atlas, mapping. do 4 (split; [done|]).
  intros r c u v Hr Hc Hu Hv.
  apply (Hpx (r, c) u v); [|done..].
  apply elem_of_grid; [lia..|done].
Qed.



(** X23. When the packer's column count is the sheet's width in tiles,
    splitting (nothing skipped), renaming and packing gives back the
    sheet: the atlas has the size of the part of the sheet that the grid
    covers and the same pixels there. *)
Theorem split_rename_pack_restores_sheet tileset :
  1 ≤ width tileset / 16 → 0 ≤ height tileset →
  ∃ saved,
    Splitter.split_tileset tileset 16 16 false = Ok saved ∧
    ∀ listing1, listing1 ≡ₚ (map_to_list (save_all ∅ saved)).*1 →
    ∃ final,
      Renamer.run (width tileset / 16) listing1 (save_all ∅ saved) = Ok final ∧
      ∀ listing2, listing2 ≡ₚ (map_to_list final.1).*1 →
      ∃ atlas mapping,
        Atlas.pack (width tileset / 16) 16 listing2 final.1
        = Ok (atlas, mapping) ∧
        width atlas = width tileset / 16 * 16 ∧
        height atlas = height tileset / 16 * 16 ∧
        ∀ px py,
          0 ≤ px < width tileset / 16 * 16 →
          0 ≤ py < height tileset / 16 * 16 →
          getpixel atlas px py = getpixel tileset px py.
Proof.
  intros Hw Hht.
  destruct (pipeline_cells tileset (width tileset / 16) Hw Hht Hw)
    as (saved & Hs & H1).
  exists saved. split; [done|]. intros listing1 Hl1.
  destruct (H1 listing1 Hl1) as (final & Hrun & H2).
  exists final. split; [done|]. intros listing2 Hl2.
  destruct (H2 listing2 Hl2)
    as (rows & atlas & mapping & Hrows & Hpack & Hwd & Hhd & Hpx).
  assert (Hh : 0 ≤ height tileset / 16) by (apply Z.div_pos; lia).
  remember (width tileset / 16) as w eqn:Ew.
  remember (height tileset / 16) as h eqn:Eh.
  assert (rows = h) as ->.
  { destruct (ceil_truediv_spec (h * w) w Hw) as (rows' & Hrows' & Hb).
    rewrite Hrows in Hrows'. injection Hrows' as <-. nia. }
  exists atlas, mapping. do 3 (split; [done|]).
  intros px py Hx Hy.
  pose proof (Z.div_mod px 16 ltac:(lia)) as Dx.
  pose proof (Z.mod_pos_bound px 16 ltac:(lia)) as Mx.
  pose proof (Z.div_mod py 16 ltac:(lia)) as Dy.
  pose proof (Z.mod_pos_bound py 16 ltac:(lia)) as My.
  remember (px / 16) as c eqn:Ec. remember (px mod 16) as u eqn:Eu.
  remember (py / 16) as r eqn:Er. remember (py mod 16) as v eqn:Ev.
  assert (Hc : 0 ≤ c < w) by lia.
  assert (Hr : 0 ≤ r < h) by lia.
  pose proof (Hpx r c u v Hr Hc Mx My) as E.
  assert (Em : (r * w + c) mod w = c).
  { rewrite (Z.add_comm (r * w)), Z.mod_add by lia. apply Z.mod_small. lia. }
  assert (Ed : (r * w + c) / w = r).
  { rewrite (Z.add_comm (r * w)), Z.div_add, Z.div_small by lia. lia. }
  rewrite Em, Ed in E.
  replace px with (c * 16 + u) by lia. replace py with (r * 16 + v) by lia.
  exact E.
Qed.

Lemma split_rename_pack_restores_sheet_witness :
  ∃ saved final atlas mapping,
    Splitter.split_tileset gradient 16 16 false = Ok saved ∧
    Renamer.run 2 (map_to_list (save_all ∅ saved)).*1 (save_all ∅ saved)
    = Ok final ∧
    Atlas.pack 2 16 (map_to_list final.1).*1 final.1 = Ok (atlas, mapping) ∧
    width atlas = 32 ∧ height atlas = 32 ∧
    getpixel atlas 20 7 = getpixel gradient 20 7.
Proof.
  destruct (split_rename_pack_restores_sheet gradient)
    as (saved & Hs & H1); [by vm_compute..|].
  destruct (H1 _ (reflexivity _)) as (final & Hrun & H2).
  destruct (H2 _ (reflexivity _))
    as (atlas & mapping & Hpack & Hwd & Hhd & Hpx).
  exists saved, final, atlas, mapping.
  split; [exact Hs|]. split; [exact Hrun|]. split; [exact Hpack|].
  split; [exact Hwd|]. split; [exact Hhd|].
  apply Hpx; by vm_compute.
Defined.
